(** * Ragged and tagged-union arrays: the indexing study and [UnionArray]

    A shallow embedding of [tests/study_indexing.py] (the recursive indexing
    engine over ragged arrays) and of [awkward/array/union.py] (the
    tagged-union container), followed by the properties established about
    them.

    Conventions of the embedding.
    - Python integers and numpy [int64] values are [Z]. The sums the engine
      forms are computed exactly, which is numpy's result as long as they
      stay within [int64].
    - A one-dimensional numpy array is a [list Z]; the scratch arrays the
      engine allocates with [numpy.full] and fills by index are lists
      updated in place with stdpp's insert, behind an explicit bounds check
      (numpy raises where stdpp's insert would do nothing).
    - A raised exception is a value of [error], one constructor per [raise]
      statement of the source (plus the exceptions numpy raises for us); the
      functions return in the [result] monad. *)

From Stdlib Require Import ZArith Lia Bool.
From stdpp Require Import list.

Local Open Scope Z_scope.
Local Set Warnings "-register-all".

(** ** Exceptions *)

(** The Python exception classes the two files raise. *)
Inductive pyexn :=
  | ValueError | IndexError | TypeError | NotImplementedError
  | AssertionError | AttributeError.

(** One constructor per place where the source raises. *)
Inductive error :=
  (* tests/study_indexing.py *)
  | IntegerBeyondRange      (* line 53 *)
  | SliceStepZero           (* line 61 *)
  | AdvancedOutOfBounds     (* lines 134 and 155 *)
  | AdvancedLengthMismatch  (* line 150 *)
  | UnsupportedTerm         (* line 183 *)
  | SpreadAssertion         (* line 38 *)
  (* raised by numpy or by the ragged container on our behalf *)
  | BufferIndex             (* item access or gather out of bounds *)
  | NegativeDimensions      (* numpy.full with a negative size *)
  | NoLength                (* len() of a numpy scalar *)
  | NoAttribute             (* .starts / .content of something not ragged *)
  | EmptyReduction          (* .max() of an empty array *)
  (* awkward/array/union.py *)
  | TagsNegative            (* line 86 *)
  | IndexNegative           (* line 100 *)
  | ContentsEmpty           (* line 112 *)
  | FromtagsMaxTag          (* line 53 *)
  | ValidRank               (* line 193 *)
  | ValidDimensionality     (* line 196 *)
  | ValidMaxTag             (* line 199 *)
  | ValidMaxIndex           (* line 204 *)
  | ReadOutOfBounds         (* line 242 *)
  | UnionUnsupported        (* lines 253 and 256 *)
  | UnionNoContent          (* line 218: self._content, an attribute never set *)
  | ContentsNotIndexable.   (* a tuple indexed by an array *)

(** The class of the exception object, as written in the source. *)
Definition pyclass (e : error) : pyexn :=
  match e with
  | IntegerBeyondRange => ValueError
  | SliceStepZero => ValueError
  | AdvancedOutOfBounds => IndexError
  | AdvancedLengthMismatch => IndexError
  | UnsupportedTerm => NotImplementedError
  | SpreadAssertion => AssertionError
  | BufferIndex => IndexError
  | NegativeDimensions => ValueError
  | NoLength => TypeError
  | NoAttribute => AttributeError
  | EmptyReduction => ValueError
  | TagsNegative => ValueError
  | IndexNegative => ValueError
  | ContentsEmpty => ValueError
  | FromtagsMaxTag => ValueError
  | ValidRank => ValueError
  | ValidDimensionality => ValueError
  | ValidMaxTag => ValueError
  | ValidMaxIndex => ValueError
  | ReadOutOfBounds => IndexError
  | UnionUnsupported => NotImplementedError
  | UnionNoContent => AttributeError
  | ContentsNotIndexable => TypeError
  end.

Inductive result (A : Type) :=
  | Ok (a : A)
  | Err (e : error).
Arguments Ok {A} a.
Arguments Err {A} e.

Definition rbind {A B} (m : result A) (k : A -> result B) : result B :=
  match m with
  | Ok a => k a
  | Err e => Err e
  end.

Notation "'let*' x ':=' m 'in' k" := (rbind m (fun x => k))
  (at level 10, x pattern, m at level 100, k at level 200).

(** A [for] loop over a list of loop-variable values, threading the
    variables the body assigns; the first exception leaves the loop. *)
Fixpoint for_each {A S} (xs : list A) (body : A -> S -> result S) (s : S)
  : result S :=
  match xs with
  | [] => Ok s
  | x :: xs' => let* s' := body x s in for_each xs' body s'
  end.

(** ** Python and numpy primitives *)

Definition len {A} (l : list A) : Z := Z.of_nat (length l).

(** [range(n)] *)
Definition range (n : Z) : list Z := map Z.of_nat (seq 0 (Z.to_nat n)).

(** [range(a, b, c)] for [c <> 0]. *)
Definition range3 (a b c : Z) : list Z :=
  let count :=
    if 0 <? c then (b - a + c - 1) / c
    else (a - b + (- c) - 1) / (- c) in
  map (fun n => a + c * Z.of_nat n) (seq 0 (Z.to_nat count)).

(** [numpy.full(n, v, int)] *)
Definition full (n : Z) (v : Z) : result (list Z) :=
  if n <? 0 then Err NegativeDimensions else Ok (replicate (Z.to_nat n) v).

(** [l[i]] for an integer [i]: negative positions count from the end. *)
Definition getitem {A} (l : list A) (i : Z) : result A :=
  let i' := if i <? 0 then i + len l else i in
  if i' <? 0 then Err BufferIndex
  else match l !! Z.to_nat i' with
       | Some x => Ok x
       | None => Err BufferIndex
       end.

(** [l[i] = v] *)
Definition setitem {A} (l : list A) (i : Z) (v : A) : result (list A) :=
  let i' := if i <? 0 then i + len l else i in
  if (i' <? 0) || (len l <=? i') then Err BufferIndex
  else Ok (<[Z.to_nat i' := v]> l).

(** The bounds of [l[a:b]] after Python's adjustment to the length. *)
Definition slice_bound (n i : Z) : Z :=
  let i' := if i <? 0 then i + n else i in
  Z.max 0 (Z.min n i').

(** [l[a:b]] *)
Definition pyslice {A} (l : list A) (a b : Z) : list A :=
  let lo := slice_bound (len l) a in
  let hi := slice_bound (len l) b in
  take (Z.to_nat (hi - lo)) (drop (Z.to_nat lo) l).

(** [l[a:b] = v] for a scalar [v]: every position of the slice is set. *)
Definition fill_slice (l : list Z) (a b : Z) (v : Z) : list Z :=
  let lo := slice_bound (len l) a in
  let hi := slice_bound (len l) b in
  take (Z.to_nat lo) l ++ replicate (Z.to_nat (hi - lo)) v
    ++ drop (Z.to_nat (Z.max lo hi)) l.

(** [l[index]] for an integer array [index]: a gathered copy. *)
Fixpoint gather {A} (l : list A) (index : list Z) : result (list A) :=
  match index with
  | [] => Ok []
  | j :: index' =>
      let* x := getitem l j in
      let* xs := gather l index' in
      Ok (x :: xs)
  end.

(** [numpy.nonzero(x)[0]] for a boolean array. *)
Fixpoint nonzero_from (k : Z) (m : list bool) : list Z :=
  match m with
  | [] => []
  | b :: m' => (if b then [k] else []) ++ nonzero_from (k + 1) m'
  end.
Definition nonzero (m : list bool) : list Z := nonzero_from 0 m.

(** [numpy.count_nonzero(x)] *)
Definition count_nonzero (m : list bool) : Z := len (filter (fun b => b = true) m).

(** ** Arrays *)

(** The arrays the engine walks through: a flat one-dimensional buffer, a
    ragged container over a content array, and the scalar a flat buffer
    yields at an integer position. *)
Inductive Array :=
  | npscalar (x : Z)
  | ndarray (data : list Z)
  | JaggedArray (starts stops : list Z) (content : Array).

(** An index term: an integer, [slice(start, stop, step)] with [None] for an
    omitted part, a one-dimensional integer array, or a one-dimensional
    boolean array. *)
Inductive term :=
  | TInt (h : Z)
  | TSlice (start stop step : option Z)
  | TIntArray (a : list Z)
  | TBoolArray (m : list bool).

(** [len(array)] *)
Definition array_len (a : Array) : result Z :=
  match a with
  | npscalar _ => Err NoLength
  | ndarray data => Ok (len data)
  | JaggedArray starts _ _ => Ok (len starts)
  end.

(** Modelled from the spec: [array[index]] for an integer array [index],
    which the source leaves to numpy and to the ragged container. A flat
    buffer returns a gathered copy; a ragged container returns a new ragged
    container with the selected rows, sharing the content buffer. *)
Definition array_take (a : Array) (index : list Z) : result Array :=
  match a with
  | npscalar _ => Err BufferIndex
  | ndarray data => let* d := gather data index in Ok (ndarray d)
  | JaggedArray starts stops content =>
      let* s := gather starts index in
      let* t := gather stops index in
      Ok (JaggedArray s t content)
  end.

(** Modelled from the spec: [array[a:b]], left to numpy and to the ragged
    container in the same way. *)
Definition array_slice (arr : Array) (a b : Z) : result Array :=
  match arr with
  | npscalar _ => Err BufferIndex
  | ndarray data => Ok (ndarray (pyslice data a b))
  | JaggedArray starts stops content =>
      Ok (JaggedArray (pyslice starts a b) (pyslice stops a b) content)
  end.

(** ** The indexing engine ([tests/study_indexing.py]) *)

(** [spread_advanced(starts, stops, advanced)] *)
Definition spread_advanced (starts stops : list Z) (advanced : option (list Z))
  : result (option (list Z)) :=
  match advanced with
  | None => Ok None
  | Some advanced =>
      if negb ((len starts =? len stops) && (len stops =? len advanced))
      then Err SpreadAssertion
      else
        let counts := zip_with Z.sub stops starts in
        let* nextadvanced := full (foldr Z.add 0 counts) 999 in
        let* (nextadvanced, k) :=
          for_each (range (len counts))
            (fun i '(nextadvanced, k) =>
               let* length := getitem counts i in
               let* adv := getitem advanced i in
               Ok (fill_slice nextadvanced k (k + length) adv, k + length))
            (nextadvanced, 0) in
        Ok (Some nextadvanced)
  end.

(** The slice bounds [a, b, c] that [getitem_slice3] computes for a row of
    the given length (lines 68 to 107). *)
Definition slice3_bounds (length : Z) (start stop step : option Z) : Z * Z * Z :=
  let c := match step with None => 1 | Some c => c end in
  let a := match start with
           | None => if 0 <? c then 0 else length - 1
           | Some a => if a <? 0 then a + length else a
           end in
  let b := match stop with
           | None => if 0 <? c then length else -1
           | Some b => if b <? 0 then b + length else b
           end in
  if 0 <? c then
    let '(a, b) := if b <=? a then (0, 0) else (a, b) in
    let a := if a <? 0 then 0 else if length <? a then length else a in
    let b := if b <? 0 then 0 else if length <? b then length else b in
    (a, b, c)
  else
    let '(a, b) := if a <=? b then (0, 0) else (a, b) in
    let a := if a <? -1 then -1 else if length <=? a then length - 1 else a in
    let b := if b <? -1 then -1 else if length <=? b then length - 1 else b in
    (a, b, c).

(** The loop of [getitem_integer] (lines 49 to 54): the gathered positions.
    [starts[i] + head] is a sum of [int64] values, exact as long as it stays
    within [int64]. *)
Definition integer_index (starts stops : list Z) (head : Z) : result (list Z) :=
  let* index := full (len starts) 999 in
  for_each (range (len starts))
    (fun i index =>
       let* s := getitem starts i in
       let j := s + head in
       let* t := getitem stops i in
       if t <=? j then Err IntegerBeyondRange
       else setitem index i j)
    index.

(** The loop of [getitem_slice3] (lines 62 to 113): the new row boundaries,
    the scratch buffer of positions and the number of positions written. *)
Definition slice3_index (starts stops : list Z) (content_len : Z)
    (start stop step : option Z) : result (list Z * list Z * list Z * Z) :=
  let* starts' := full (len starts) 999 in
  let* stops' := full (len stops) 999 in
  let* index := full content_len 999 in
  for_each (range (len starts))
    (fun i '(starts', stops', index, k) =>
       let* t := getitem stops i in
       let* s := getitem starts i in
       let length := t - s in
       let '(a, b, c) := slice3_bounds length start stop step in
       let* starts' := setitem starts' i k in
       let* (index, k) :=
         for_each (range3 a b c)
           (fun j '(index, k) =>
              let* s := getitem starts i in
              let* index := setitem index k (s + j) in
              Ok (index, k + 1))
           (index, k) in
       let* stops' := setitem stops' i k in
       Ok (starts', stops', index, k))
    (starts', stops', index, 0).

(** The loop of [getitem_intarray_none] (lines 119 to 138). *)
Definition intarray_none_index (starts stops : list Z) (head : list Z)
  : result (list Z * list Z * list Z * list Z) :=
  let* starts' := full (len starts) 999 in
  let* stops' := full (len stops) 999 in
  let* index := full (len head * len starts) 999 in
  let* nextadvanced := full (len index) 999 in
  let* (starts', stops', index, nextadvanced, k) :=
    for_each (range (len starts))
      (fun i '(starts', stops', index, nextadvanced, k) =>
         let* t := getitem stops i in
         let* s := getitem starts i in
         let length := t - s in
         let* starts' := setitem starts' i k in
         let* (index, nextadvanced, k) :=
           for_each (range (len head))
             (fun j '(index, nextadvanced, k) =>
                let* norm := getitem head j in
                let norm := if norm <? 0 then norm + length else norm in
                if (norm <? 0) || (length <=? norm) then Err AdvancedOutOfBounds
                else
                  let* s := getitem starts i in
                  let* index := setitem index k (s + norm) in
                  let* nextadvanced := setitem nextadvanced k j in
                  Ok (index, nextadvanced, k + 1))
             (index, nextadvanced, k) in
         let* stops' := setitem stops' i k in
         Ok (starts', stops', index, nextadvanced, k))
      (starts', stops', index, nextadvanced, 0) in
  Ok (starts', stops', index, nextadvanced).

(** The loop of [getitem_intarray_some] (lines 144 to 157). *)
Definition intarray_some_index (starts stops : list Z) (head advanced : list Z)
  : result (list Z * list Z) :=
  let* index := full (len starts) 999 in
  let* nextadvanced := full (len index) 999 in
  for_each (range (len advanced))
    (fun i '(index, nextadvanced) =>
       let* t := getitem stops i in
       let* s := getitem starts i in
       let length := t - s in
       let* adv := getitem advanced i in
       if len head <=? adv then Err AdvancedLengthMismatch
       else
         let* adv := getitem advanced i in
         let* normj := getitem head adv in
         let normj := if normj <? 0 then normj + length else normj in
         if (normj <? 0) || (length <=? normj) then Err AdvancedOutOfBounds
         else
           let* s := getitem starts i in
           let* index := setitem index i (s + normj) in
           let* nextadvanced := setitem nextadvanced i i in
           Ok (index, nextadvanced))
    (index, nextadvanced).

Section Engine.

(** The native indexing of a flat buffer by the terms that are left when
    the engine reaches one (line 166, [array[slices]]): numpy's, outside
    the repository. *)
Variable native_getitem : list Z -> list term -> result Array.

(** The recursive call [getitem_next(_, tail, _)], already applied to the
    tail of the terms. *)
Variable next : Array -> option (list Z) -> result Array.

Definition getitem_integer (starts stops : list Z) (content : Array)
    (head : Z) (advanced : option (list Z)) : result Array :=
  let* index := integer_index starts stops head in
  let* c := array_take content index in
  next c advanced.

Definition getitem_slice3 (starts stops : list Z) (content : Array)
    (start stop step : option Z) (advanced : option (list Z)) : result Array :=
  if match step with Some 0 => true | _ => false end then Err SliceStepZero
  else
    let* n := array_len content in
    let* (starts', stops', index, k) :=
      slice3_index starts stops n start stop step in
    let* c := array_take content (pyslice index 0 k) in
    let* adv := spread_advanced starts' stops' advanced in
    let* nxt := next c adv in
    Ok (JaggedArray starts' stops' nxt).

Definition getitem_intarray_none (starts stops : list Z) (content : Array)
    (head : list Z) : result Array :=
  let* (starts', stops', index, nextadvanced) :=
    intarray_none_index starts stops head in
  let* c := array_take content index in
  let* nxt := next c (Some nextadvanced) in
  Ok (JaggedArray starts' stops' nxt).

Definition getitem_intarray_some (starts stops : list Z) (content : Array)
    (head : list Z) (advanced : list Z) : result Array :=
  let* (index, nextadvanced) :=
    intarray_some_index starts stops head advanced in
  let* c := array_take content index in
  next c (Some nextadvanced).

End Engine.

Section Entry.

Variable native_getitem : list Z -> list term -> result Array.

(** [getitem_next(array, slices, advanced)], by recursion on the terms:
    every branch recurses on [slices[1:]]. *)
Fixpoint getitem_next (slices : list term) (array : Array)
    (advanced : option (list Z)) {struct slices} : result Array :=
  match slices with
  | [] => Ok array
  | head :: tail =>
      match array with
      | ndarray data => native_getitem data slices
      | npscalar _ =>
          (* neither a flat buffer nor ragged: the branch taken for the
             head fails on its first attribute access *)
          match head with
          | TSlice _ _ (Some 0) => Err SliceStepZero
          | TBoolArray _ => Err UnsupportedTerm
          | _ => Err NoAttribute
          end
      | JaggedArray starts stops content =>
          match head with
          | TInt h =>
              getitem_integer (getitem_next tail) starts stops content h advanced
          | TSlice start stop step =>
              getitem_slice3 (getitem_next tail) starts stops content
                start stop step advanced
          | TIntArray h =>
              match advanced with
              | None =>
                  getitem_intarray_none (getitem_next tail) starts stops content h
              | Some adv =>
                  getitem_intarray_some (getitem_next tail) starts stops content h adv
              end
          | TBoolArray _ => Err UnsupportedTerm
          end
      end
  end.

(** The broadcast length computed by the first loop of [getitem_enter]
    (lines 189 to 195). *)
Definition enter_arraylen (slices : list term) : Z :=
  foldl (fun arraylen x =>
           match x with
           | TBoolArray m => Z.max arraylen (count_nonzero m)
           | TIntArray a => Z.max arraylen (len a)
           | _ => arraylen
           end) 0 slices.

(** The terms rewritten by the second loop (lines 197 to 206). *)
Definition enter_newslices (arraylen : Z) (slices : list term) : list term :=
  map (fun x =>
         match x with
         | TBoolArray m => TIntArray (nonzero m)
         | TInt h =>
             if arraylen =? 0 then x
             else TIntArray (replicate (Z.to_nat arraylen) h)
         | TIntArray [v] => TIntArray (replicate (Z.to_nat arraylen) v)
         | _ => x
         end) slices.

Definition getitem_enter (array : Array) (slices : list term) : result Array :=
  match slices with
  | [] => Ok array
  | _ =>
      let arraylen := enter_arraylen slices in
      let newslices := enter_newslices arraylen slices in
      let* n := array_len array in
      let* fake := getitem_next newslices (JaggedArray [0] [n] array) None in
      match fake with
      | ndarray data => let* x := getitem data 0 in Ok (npscalar x)
      | JaggedArray starts stops content =>
          let* a := getitem starts 0 in
          let* b := getitem stops (-1) in
          array_slice content a b
      | npscalar _ => Err NoAttribute
      end
  end.

End Entry.

(** ** Dense arrays, their ragged wrapping, and the reference semantics *)

(** A dense array as nested lists, the shape of [tolist()]. *)
Inductive nested :=
  | Leaf (x : Z)
  | Node (items : list nested).

Definition children (a : nested) : list nested :=
  match a with
  | Leaf _ => []
  | Node items => items
  end.

Definition leaf_value (a : nested) : Z :=
  match a with
  | Leaf x => x
  | Node _ => 0
  end.

(** The running offsets [0, n0, n0+n1, ...] of rows of the given lengths. *)
Fixpoint offsets_from (k : Z) (lens : list Z) : list Z :=
  match lens with
  | [] => [k]
  | n :: lens' => k :: offsets_from (k + n) lens'
  end.

(** Modelled from the spec: the ragged wrapping of a dense array
    ([awkward.fromiter], absent from the sources at hand), by the number of
    ragged levels: none for a one-dimensional array, which is a flat
    buffer; otherwise a ragged container whose row [i] spans the items of
    the [i]-th sub-array in the wrapping of the concatenated sub-arrays. An
    array of rank [r] has [r - 1] ragged levels. *)
Fixpoint fromiter (levels : nat) (rows : list nested) : Array :=
  match levels with
  | O => ndarray (map leaf_value rows)
  | S r =>
      let offsets := offsets_from 0 (map (fun row => len (children row)) rows) in
      JaggedArray (take (length rows) offsets) (drop 1 offsets)
        (fromiter r (concat (map children rows)))
  end.

(** Modelled from the spec: [tolist()] of an engine result. A ragged
    container lists, for each row, the span [starts[i]:stops[i]] of its
    content. *)
Fixpoint tolist_items (a : Array) : list nested :=
  match a with
  | npscalar _ => []
  | ndarray data => map Leaf data
  | JaggedArray starts stops content =>
      let items := tolist_items content in
      zip_with (fun s t => Node (pyslice items s t)) starts stops
  end.

Definition tolist (a : Array) : nested :=
  match a with
  | npscalar x => Leaf x
  | _ => Node (tolist_items a)
  end.

(** [mapM]: a comprehension whose body may raise. *)
Fixpoint map_result {A B} (f : A -> result B) (l : list A) : result (list B) :=
  match l with
  | [] => Ok []
  | x :: l' =>
      let* y := f x in
      let* ys := map_result f l' in
      Ok (y :: ys)
  end.

(** Modelled from the spec: the slice bounds of a dense array, in the words
    of the slice rule. A missing start is [0] (ascending) or [len-1]
    (descending), a missing stop is [len] (ascending) or [-1] (descending),
    a negative start or stop is offset by [len], and both are then clamped
    into [[0, len]] (ascending) or [[-1, len-1]] (descending). *)
Definition clamp (lo hi x : Z) : Z := Z.max lo (Z.min hi x).

Definition dense_slice_bounds (length : Z) (start stop step : option Z)
  : Z * Z * Z :=
  let c := default 1 step in
  let lo := if 0 <? c then 0 else -1 in
  let hi := if 0 <? c then length else length - 1 in
  let a := match start with
           | None => if 0 <? c then 0 else length - 1
           | Some a => clamp lo hi (if a <? 0 then a + length else a)
           end in
  let b := match stop with
           | None => if 0 <? c then length else -1
           | Some b => clamp lo hi (if b <? 0 then b + length else b)
           end in
  (a, b, c).

(** Modelled from the spec: [items[start:stop:step]] on a dense array. *)
Definition dense_slice {A} (items : list A) (start stop step : option Z)
  : result (list A) :=
  match step with
  | Some 0 => Err SliceStepZero
  | _ =>
      let '(a, b, c) := dense_slice_bounds (len items) start stop step in
      gather items (range3 a b c)
  end.

(** Basic terms: what is left of an index expression once every array has
    been replaced by one of its entries. *)
Inductive bterm :=
  | BInt (h : Z)
  | BSlice (start stop step : option Z).

(** Modelled from the spec: basic indexing of a dense array, one term per
    axis from the left. *)
Fixpoint dense_basic (terms : list bterm) (a : nested) : result nested :=
  match terms with
  | [] => Ok a
  | BInt h :: tl =>
      match a with
      | Leaf _ => Err BufferIndex
      | Node items => let* x := getitem items h in dense_basic tl x
      end
  | BSlice start stop step :: tl =>
      match a with
      | Leaf _ => Err BufferIndex
      | Node items =>
          let* rows := dense_slice items start stop step in
          let* rows' := map_result (dense_basic tl) rows in
          Ok (Node rows')
      end
  end.

Definition is_slice (x : term) : bool :=
  match x with TSlice _ _ _ => true | _ => false end.

Definition is_array (x : term) : bool :=
  match x with TIntArray _ | TBoolArray _ => true | _ => false end.

(** The common length the array-valued terms broadcast to: lengths other
    than one must agree. *)
Definition broadcast_len (terms : list term) : result Z :=
  foldl (fun acc x =>
           let* n := acc in
           match x with
           | TIntArray a =>
               if len a =? 1 then Ok n
               else if n =? 1 then Ok (len a)
               else if n =? len a then Ok n
               else Err AdvancedLengthMismatch
           | _ => Ok n
           end) (Ok 1) terms.

(** Entry [k] of the broadcast index expression. *)
Definition pick (k : Z) (x : term) : result bterm :=
  match x with
  | TInt h => Ok (BInt h)
  | TSlice start stop step => Ok (BSlice start stop step)
  | TIntArray [v] => Ok (BInt v)
  | TIntArray a => let* v := getitem a k in Ok (BInt v)
  | TBoolArray _ => Err UnsupportedTerm
  end.

(** The result with the broadcast axis in front: one basic lookup per
    broadcast entry. *)
Definition dense_stack (n : Z) (terms : list term) (a : nested) : result nested :=
  let* rows :=
    map_result (fun k => let* bts := map_result (pick k) terms in dense_basic bts a)
      (range n) in
  Ok (Node rows).

(** Leading slices are applied axis by axis; the broadcast axis takes the
    place of the first array-valued or integer term. *)
Fixpoint dense_lead (n : Z) (terms : list term) (a : nested) : result nested :=
  match terms with
  | TSlice start stop step :: tl =>
      match a with
      | Leaf _ => Err BufferIndex
      | Node items =>
          let* rows := dense_slice items start stop step in
          let* rows' := map_result (dense_lead n tl) rows in
          Ok (Node rows')
      end
  | _ => dense_stack n terms a
  end.

Fixpoint drop_slices (terms : list term) : list term :=
  match terms with
  | x :: tl => if is_slice x then drop_slices tl else terms
  | [] => []
  end.

(** Whether the array-valued and integer terms sit next to each other: no
    slice between the first and the last of them. *)
Definition adjacent (terms : list term) : bool :=
  forallb (fun x => negb (is_slice x))
    (drop_slices (reverse (drop_slices terms))).

(** Modelled from the spec: the reference semantics, a dense array indexed
    by integers, slices, boolean masks and integer arrays. A mask stands for
    the positions where it is true. Without an array-valued term the
    indexing is basic. With one, the arrays broadcast to a common length
    and the integers with them; the broadcast axis replaces the first of
    these terms when they are adjacent and comes first when a slice
    separates them. *)
Definition dense_getitem (a : nested) (terms : list term) : result nested :=
  let terms :=
    map (fun x => match x with TBoolArray m => TIntArray (nonzero m) | _ => x end)
      terms in
  if existsb is_array terms then
    let* n := broadcast_len terms in
    if adjacent terms then dense_lead n terms a else dense_stack n terms a
  else
    let* bts := map_result (pick 0) terms in
    dense_basic bts a.

(** ** The tagged-union container ([awkward/array/union.py]) *)

(** The element types the promotion chain of [UnionArray.dtype] tells apart:
    [numpy.bool_]; the subclasses of [numpy.integer], which are the eight
    fixed-width types the chain names and, outside these, [timedelta64] and
    the C [long long] types (distinct from [int64] and [uint64] where the C
    [long] has 64 bits); the subclasses of [numpy.floating] and of
    [numpy.complexfloating]; [numpy.object_]; and [str_] for a type outside
    all of them. *)
Inductive npdtype :=
  | bool_
  | int8 | uint8 | int16 | uint16 | int32 | uint32 | int64 | uint64
  | longlong | ulonglong | timedelta64
  | float16 | float32 | float64 | float128
  | complex64 | complex128 | complex256
  | object_
  | str_.

#[global] Instance npdtype_eq_dec : EqDecision npdtype.
Proof. solve_decision. Defined.

(** [issubclass(t, numpy.integer)], and likewise for [numpy.floating] and
    [numpy.complexfloating]. *)
Definition integer_types : list npdtype :=
  [int8; uint8; int16; uint16; int32; uint32; int64; uint64;
   longlong; ulonglong; timedelta64].
Definition floating_types : list npdtype := [float16; float32; float64; float128].
Definition complexfloating_types : list npdtype :=
  [complex64; complex128; complex256].

(** An integer array of any rank, as [tags] and [index] are: its shape and
    its values in row-major order ([reshape(-1)]). *)
Record intarray := {
  shape : list Z;
  values : list Z
}.

(** A one-dimensional [tags] or [index] array. *)
Definition array1d (l : list Z) : intarray :=
  {| shape := [len l]; values := l |}.

(** A view of the union, as [__getitem__] decodes [_view]: strided
    ([start, step, length]) or gathered through an array of positions. The
    old tail of index terms a view carries is left out; nothing in the file
    ever creates a view. *)
Inductive view :=
  | Strided (start step length : Z)
  | Gathered (positions : list Z).

(** What [__getitem__] is called with: an integer, a slice, a string or a
    list of strings ([awkward.util.isstringslice]), or anything else. *)
Inductive selector :=
  | SInt (h : Z)
  | SSlice
  | SString
  | SOther.

(** [reshape(-1).max()] *)
Definition array_max (l : list Z) : result Z :=
  match l with
  | [] => Err EmptyReduction
  | x :: l' => Ok (foldl Z.max x l')
  end.

(** [len(x)] for an array of any rank. *)
Definition intarray_len (x : intarray) : result Z :=
  match shape x with
  | [] => Err NoLength
  | n :: _ => Ok n
  end.

(** [index[mask] = vals]: the positions where the mask holds take the
    values in order. *)
Fixpoint masked_assign (index : list Z) (mask : list bool) (vals : list Z)
  : list Z :=
  match index, mask with
  | x :: index', m :: mask' =>
      if m then
        match vals with
        | v :: vals' => v :: masked_assign index' mask' vals'
        | [] => index
        end
      else x :: masked_assign index' mask' vals
  | _, _ => index
  end.

Section Union.

(** The elements of the contents. *)
Context {A : Type}.

(** One of the contents: its items along the leading axis, the shape of
    an item, and the element type. *)
Record content := {
  items : list A;
  item_shape : list Z;
  dtype_of : npdtype
}.

(** [x.shape] *)
Definition content_shape (x : content) : list Z := len (items x) :: item_shape x.

Record UnionArray := {
  _view : option view;
  _tags : intarray;
  _index : intarray;
  _contents : list content;
  _isvalid : bool
}.

(** The checks of the three setters (lines 80 to 114). *)
Definition check_tags (value : intarray) : result intarray :=
  if existsb (fun t => t <? 0) (values value) then Err TagsNegative else Ok value.

Definition check_index (value : intarray) : result intarray :=
  if existsb (fun t => t <? 0) (values value) then Err IndexNegative else Ok value.

Definition check_contents (value : list content) : result (list content) :=
  if len value =? 0 then Err ContentsEmpty else Ok value.

(** [UnionArray(tags, index, contents)] *)
Definition __init__ (tags index : intarray) (contents : list content)
  : result UnionArray :=
  let* tags := check_tags tags in
  let* index := check_index index in
  let* contents := check_contents contents in
  Ok {| _view := None; _tags := tags; _index := index;
        _contents := contents; _isvalid := false |}.

(** [numpy.empty(shape)]: an array of the right size whose values are
    whatever the memory held. *)
Variable np_empty : nat -> list Z.

(** The loop of [fromtags] (lines 55 to 57). *)
Definition fromtags_index (tags : list Z) (ncontents : nat) (index : list Z)
  : list Z :=
  foldl (fun index tag =>
           let mask := map (fun t => t =? tag) tags in
           masked_assign index mask (range (count_nonzero mask)))
    index (range (Z.of_nat ncontents)).

(** [UnionArray.fromtags(tags, contents)] *)
Definition fromtags (tags : intarray) (contents : list content)
  : result UnionArray :=
  let* tags := check_tags tags in
  let index := np_empty (length (values tags)) in
  let* contents := check_contents contents in
  let* m := array_max (values tags) in
  if len contents <=? m then Err FromtagsMaxTag
  else
    Ok {| _view := None; _tags := tags;
          _index := {| shape := shape tags;
                       values := fromtags_index (values tags) (length contents) index |};
          _contents := contents; _isvalid := false |}.

(** [all(issubclass(x.dtype.type, types) for x in self._contents)] *)
Definition all_of (types : list npdtype) (contents : list content) : bool :=
  forallb (fun x => bool_decide (dtype_of x ∈ types)) contents.

(** [UnionArray.dtype] (lines 117 to 173) *)
Definition dtype (contents : list content) : npdtype :=
  if all_of [bool_] contents then bool_
  else if all_of [int8] contents then int8
  else if all_of [uint8] contents then uint8
  else if all_of [int8; uint8; int16] contents then int16
  else if all_of [uint8; uint16] contents then uint16
  else if all_of [int8; uint8; int16; uint16; int32] contents then int32
  else if all_of [uint8; uint16; uint32] contents then uint32
  else if all_of [int8; uint8; int16; uint16; int32; uint32; int64] contents
       then int64
  else if all_of [uint8; uint16; uint32; uint64] contents then uint64
  else if all_of [float16] contents then float16
  else if all_of [float16; float32] contents then float32
  else if all_of [float16; float32; float64] contents then float64
  else if all_of [float16; float32; float64; float128] contents then float128
  else if all_of (integer_types ++ floating_types) contents then float64
  else if all_of [complex64] contents then complex64
  else if all_of [complex64; complex128] contents then complex128
  else if all_of [complex64; complex128; complex256] contents then complex256
  else if all_of (integer_types ++ floating_types ++ complexfloating_types)
            contents
       then complex256
  else object_.

(** [UnionArray.shape] (lines 176 to 181) *)
Definition union_shape (u : UnionArray) : result (list Z) :=
  let* x0 := getitem (_contents u) 0 in
  let first := content_shape x0 in
  if bool_decide (dtype (_contents u) = object_)
     || negb (forallb (fun x => bool_decide (content_shape x = first))
                (drop 1 (_contents u)))
  then Ok (shape (_tags u))
  else Ok (shape (_tags u) ++ first).

(** [UnionArray._valid] (lines 190 to 206) *)
Definition _valid (u : UnionArray) : result UnionArray :=
  if _isvalid u then Ok u
  else
    if len (shape (_index u)) <? len (shape (_tags u)) then Err ValidRank
    else if negb (bool_decide (drop 1 (shape (_tags u)) = drop 1 (shape (_index u))))
    then Err ValidDimensionality
    else
      let* maxtag := array_max (values (_tags u)) in
      if len (_contents u) <=? maxtag then Err ValidMaxTag
      else
        let* n := intarray_len (_tags u) in
        let rows := slice_bound (default 0 (head (shape (_index u)))) n in
        let width := foldr Z.mul 1 (drop 1 (shape (_index u))) in
        let* maxindex :=
          array_max (take (Z.to_nat (rows * width)) (values (_index u))) in
        let* _ :=
          for_each (_contents u)
            (fun x (_ : unit) =>
               if len (_contents u) <=? maxindex then Err ValidMaxIndex
               else Ok tt)
            tt in
        Ok {| _view := _view u; _tags := _tags u; _index := _index u;
              _contents := _contents u; _isvalid := true |}.

(** [UnionArray.__getitem__] (lines 214 to 256), for a [where] that is
    not a tuple: the element read and the container with its validity
    cached. A string selector is met first (line 218) and reads
    [self._content], an attribute the class never sets; the other selectors
    decode the view before they are told apart. *)
Definition __getitem__ (u : UnionArray) (where_ : selector)
  : result (A * UnionArray) :=
  let* u := _valid u in
  let decoded :=
    match _view u with
    | None => intarray_len (_tags u)
    | Some (Strided _ _ length) => Ok length
    | Some (Gathered positions) => Ok (len positions)
    end in
  match where_ with
  | SString => Err UnionNoContent
  | SInt h =>
      let* length := decoded in
      let h := if h <? 0 then h + length else h in
      if negb ((0 <=? h) && (h <? length)) then Err ReadOutOfBounds
      else
        let* h :=
          match _view u with
          | None => Ok (0 + 1 * h)
          | Some (Strided start step _) => Ok (start + step * h)
          | Some (Gathered positions) => getitem positions h
          end in
        match shape (_tags u) with
        | [_] =>
            let* tag := getitem (values (_tags u)) h in
            let* x := getitem (_contents u) tag in
            let* i := getitem (values (_index u)) h in
            let* e := getitem (items x) i in
            Ok (e, u)
        | _ => Err ContentsNotIndexable
        end
  | SSlice => let* _ := decoded in Err UnionUnsupported
  | SOther => let* _ := decoded in Err UnionUnsupported
  end.

End Union.

Arguments content : clear implicits.
Arguments UnionArray : clear implicits.

(** ** The steps of the engine in the words of the design

    Each step of the engine is restated here as a comprehension over the
    rows, without scratch buffers or counters; the loops of the source are
    compared with these below. *)

(** Integer term [h]: position [starts[i] + h] of every row [i], failing at
    the first row where that position reaches [stops[i]]. *)
Definition integer_positions (starts stops : list Z) (h : Z) : result (list Z) :=
  map_result
    (fun '(s, t) => if t <=? s + h then Err IntegerBeyondRange else Ok (s + h))
    (zip starts stops).

(** An entry of an integer array against a row of the given length: a
    negative entry is offset by the length, and the result must fall inside
    the row. *)
Definition normalized (length x : Z) : result Z :=
  let x := if x <? 0 then x + length else x in
  if (x <? 0) || (length <=? x) then Err AdvancedOutOfBounds else Ok x.

(** Integer-array term, context unset: for every row [i] and every entry
    [j], position [starts[i] + normalized(term[j])]. *)
Definition outer_rows (starts stops head : list Z) : result (list (list Z)) :=
  map_result
    (fun '(s, t) =>
       map_result (fun x => let* v := normalized (t - s) x in Ok (s + v)) head)
    (zip starts stops).

Definition outer_positions (starts stops head : list Z) : result (list Z) :=
  let* rows := outer_rows starts stops head in Ok (concat rows).

(** The context it establishes: [j] at the position produced by entry [j],
    row after row. *)
Definition outer_context (rows : nat) (head : list Z) : list Z :=
  concat (replicate rows (range (len head))).

(** Integer-array term, context set: for every row [i], position
    [starts[i] + normalized(term[context[i]])]. *)
Definition vectorized_positions (starts stops head advanced : list Z)
  : result (list Z) :=
  map_result
    (fun '(s, t, adv) =>
       if len head <=? adv then Err AdvancedLengthMismatch
       else
         let* x := getitem head adv in
         let* v := normalized (t - s) x in
         Ok (s + v))
    (zip (zip starts stops) advanced).

(** Slice term: for every row, the positions of the slice taken against the
    row's own length by the dense-array rule. *)
Definition slice_rows (starts stops : list Z) (start stop step : option Z)
  : list (list Z) :=
  map (fun '(s, t) =>
         let '(a, b, c) := dense_slice_bounds (t - s) start stop step in
         map (Z.add s) (range3 a b c))
    (zip starts stops).

(** The boundaries of the rows of a result whose rows are laid out one
    after the other from position [k]: each row starts where the previous
    one stopped, and stops after as many positions as it produced. *)
Fixpoint row_starts_from {A} (k : Z) (rows : list (list A)) : list Z :=
  match rows with
  | [] => []
  | r :: rows' => k :: row_starts_from (k + len r) rows'
  end.

Fixpoint row_stops_from {A} (k : Z) (rows : list (list A)) : list Z :=
  match rows with
  | [] => []
  | r :: rows' => (k + len r) :: row_stops_from (k + len r) rows'
  end.

(** Modelled from the spec: the error taxonomy of the design, by the
    invariant that broke rather than by the Python class of the exception
    object. *)
Inductive condition :=
  | ConstructionError
  | ValidityError
  | IndexErrorCondition
  | UnsupportedOperationError.

Definition condition_of (e : error) : option condition :=
  match e with
  | IntegerBeyondRange | AdvancedOutOfBounds | AdvancedLengthMismatch
  | BufferIndex | ReadOutOfBounds => Some IndexErrorCondition
  | TagsNegative | IndexNegative | ContentsEmpty | FromtagsMaxTag =>
      Some ConstructionError
  | ValidRank | ValidDimensionality | ValidMaxTag | ValidMaxIndex =>
      Some ValidityError
  | UnionUnsupported | UnsupportedTerm => Some UnsupportedOperationError
  | _ => None
  end.

(** The shape of a union in the words of the design: the shape of [tags]
    followed by the shape of an item when every content has the same item
    shape and none has the generic element type, the shape of [tags]
    otherwise. *)
Definition designed_shape {A} (u : UnionArray A) : list Z :=
  match _contents u with
  | [] => shape (_tags u)
  | x0 :: rest =>
      if forallb (fun x => bool_decide (item_shape x = item_shape x0)) rest
         && forallb (fun x => negb (bool_decide (dtype_of x = object_)))
              (_contents u)
      then shape (_tags u) ++ item_shape x0
      else shape (_tags u)
  end.

(** The check of the index range in the words of the design: for every
    position, [index[i] < len(contents[tags[i]])]. *)
Definition index_in_range {A} (tags index : list Z) (contents : list (content A))
  : bool :=
  forallb (fun '(t, i) =>
             match contents !! Z.to_nat t with
             | Some x => i <? len (items x)
             | None => false
             end)
    (zip tags index).

(** The index of [fromtags] in the words of the design: the positions
    carrying a tag receive the offsets 0, 1, 2, ... in order of appearance,
    so a position gets the number of earlier positions with its tag. *)
Definition per_tag_offsets (tags : list Z) : list Z :=
  imap (fun i t => count_nonzero (map (fun t' => t' =? t) (take i tags))) tags.

(** ** The inputs of the study *)

(** [numpy.arange(n1*n2*n3).reshape(n1, n2, n3)] and its rank-4 analogue,
    as nested lists. *)
Definition arange3 (n1 n2 n3 : nat) : list nested :=
  map (fun i =>
         Node (map (fun j =>
                      Node (map (fun k => Leaf (Z.of_nat ((i * n2 + j) * n3 + k)))
                              (seq 0 n3)))
                 (seq 0 n2)))
    (seq 0 n1).

Definition arange4 (n1 n2 n3 n4 : nat) : list nested :=
  map (fun i =>
         Node (map (fun j =>
                      Node (map (fun k =>
                                   Node (map (fun l =>
                                                Leaf (Z.of_nat
                                                        (((i * n2 + j) * n3 + k) * n4 + l)))
                                           (seq 0 n4)))
                              (seq 0 n3)))
                 (seq 0 n2)))
    (seq 0 n1).

(** The nine terms of line 214. *)
Definition study_slices : list term :=
  [TInt 2;
   TSlice None None None;
   TSlice (Some 2) (Some 4) None;
   TSlice (Some 1) None (Some 2);
   TSlice None None (Some (-1));
   TIntArray [2; 0; 0];
   TIntArray [3; 1; 2];
   TBoolArray [true; false; true; true];
   TBoolArray [true; true; true; false]].

(** The index expressions of the nested loops of lines 218 to 232: every
    one, two and three terms. *)
Definition expressions (slices : list term) : list (list term) :=
  flat_map (fun x =>
              [x] :: flat_map (fun y =>
                                 [x; y] :: map (fun z => [x; y; z]) slices)
                       slices)
    slices.

(** The left side of the assertions: [getitem_enter(a2, terms).tolist()]
    with [a2] the ragged wrapping of the dense array. *)
Definition engine_tolist (native : list Z -> list term -> result Array)
    (levels : nat) (rows : list nested) (terms : list term) : result nested :=
  let* r := getitem_enter native (fromiter levels rows) terms in Ok (tolist r).

Fixpoint nested_eqb (a b : nested) : bool :=
  match a, b with
  | Leaf x, Leaf y => x =? y
  | Node l, Node m =>
      (fix all_eqb (l m : list nested) : bool :=
         match l, m with
         | [], [] => true
         | x :: l', y :: m' => nested_eqb x y && all_eqb l' m'
         | _, _ => false
         end) l m
  | _, _ => false
  end.

(** Both sides return, and return the same nested lists. *)
Definition same_lists (r1 r2 : result nested) : bool :=
  match r1, r2 with
  | Ok x, Ok y => nested_eqb x y
  | _, _ => false
  end.

(** ** Inputs of the examples *)

(** A flat buffer that accepts no further term, for running the engine on
    inputs where none is left when a flat buffer is reached. *)
Definition flat_rejects : list Z -> list term -> result Array :=
  fun _ _ => Err BufferIndex.

(** The ragged container of the design's scenario: rows [[a, b]], [[]] and
    [[c, d, e]] over the content [[a, b, c, d, e]], here 10 to 50. *)
Definition scenario_rows : Array :=
  JaggedArray [0; 2; 2] [2; 2; 5] (ndarray [10; 20; 30; 40; 50]).

(** The number of items of the rows of a ragged container. *)
Definition total_count (starts stops : list Z) : Z :=
  foldr Z.add 0 (zip_with Z.sub stops starts).

(** A one-dimensional content of integers. *)
Definition int_content (l : list Z) : content Z :=
  {| items := l; item_shape := []; dtype_of := int64 |}.

(** [UnionArray(tags, index, contents)] on one-dimensional arrays, and a
    read of the result. *)
Definition union_of (tags index : list Z) (contents : list (content Z))
  : result (UnionArray Z) :=
  __init__ (array1d tags) (array1d index) contents.

Definition read {A} (u : result (UnionArray A)) (i : Z) : result A :=
  let* u := u in
  let* (e, _) := __getitem__ u (SInt i) in
  Ok e.

(** Two contents of two items of shape [(3,)], one boolean and one of 8-bit
    integers. *)
Definition mixed_union : UnionArray (list Z) :=
  {| _view := None;
     _tags := array1d [0; 1];
     _index := array1d [0; 0];
     _contents := [ {| items := [[1; 0; 1]; [0; 0; 1]]; item_shape := [3];
                       dtype_of := bool_ |};
                    {| items := [[1; 2; 3]; [4; 5; 6]]; item_shape := [3];
                       dtype_of := int8 |} ];
     _isvalid := false |}.

(** A union of three positions over two contents, [10], [99], [20] in
    order, with the validity flag given. *)
Definition sample_union (flag : bool) : UnionArray Z :=
  {| _view := None;
     _tags := array1d [0; 1; 0];
     _index := array1d [0; 0; 1];
     _contents := [int_content [10; 20]; int_content [99]];
     _isvalid := flag |}.

(** ** The other operations of the union *)

Section UnionOperations.

Context {A : Type}.

(** [UnionArray.__len__] (line 184) *)
Definition __len__ (u : UnionArray A) : result Z := intarray_len (_tags u).

(** The setters called on an existing container (lines 80 to 114): the
    value is checked, stored, and the container is marked as not validated;
    a check that raises leaves the container as it was. *)
Definition set_tags (u : UnionArray A) (value : intarray) : result (UnionArray A) :=
  let* value := check_tags value in
  Ok {| _view := _view u; _tags := value; _index := _index u;
        _contents := _contents u; _isvalid := false |}.

Definition set_index (u : UnionArray A) (value : intarray) : result (UnionArray A) :=
  let* value := check_index value in
  Ok {| _view := _view u; _tags := _tags u; _index := value;
        _contents := _contents u; _isvalid := false |}.

Definition set_contents (u : UnionArray A) (value : list (content A))
  : result (UnionArray A) :=
  let* value := check_contents value in
  Ok {| _view := _view u; _tags := _tags u; _index := _index u;
        _contents := value; _isvalid := false |}.

(** What a generator yields before it ends, and the exception that ended
    it, if one did. *)
Fixpoint yield_each (f : Z -> result A) (positions : list Z)
  : list A * option error :=
  match positions with
  | [] => ([], None)
  | i :: positions' =>
      match f i with
      | Ok e => let '(es, r) := yield_each f positions' in (e :: es, r)
      | Err e => ([], Some e)
      end
  end.

(** [UnionArray.__iter__] (lines 208 to 212): validation, then [self[i]]
    for every [i] in [range(len(self))], on the container validation has
    marked. *)
Definition __iter__ (u : UnionArray A) : list A * option error :=
  match _valid u with
  | Err e => ([], Some e)
  | Ok u =>
      match __len__ u with
      | Err e => ([], Some e)
      | Ok n =>
          yield_each (fun i => let* (e, _) := __getitem__ u (SInt i) in Ok e)
            (range n)
      end
  end.

(** The element the data model assigns to position [i]:
    [contents[tags[i]][index[i]]]. *)
Definition element_at (u : UnionArray A) (i : Z) : result A :=
  let* tag := getitem (values (_tags u)) i in
  let* x := getitem (_contents u) tag in
  let* k := getitem (values (_index u)) i in
  getitem (items x) k.

End UnionOperations.

Section Columns.

(** Column names. *)
Context {K : Type} `{EqDecision K}.

(** What [columns] and [allcolumns] read of a content. *)
Record table := {
  table_columns : list K;
  table_allcolumns : list K
}.

(** The loop shared by [UnionArray.columns] (lines 288 to 295) and
    [UnionArray.allcolumns] (lines 298 to 305), over the attribute it
    reads: [None] while no content was seen, then the names of each further
    content that are in what was kept so far. *)
Definition common_names (names : list (list K)) : option (list K) :=
  foldl (fun out c =>
           match out with
           | None => Some c
           | Some out => Some (filter (fun x => x ∈ out) c)
           end)
    None names.

Definition columns (contents : list table) : option (list K) :=
  common_names (map table_columns contents).

Definition allcolumns (contents : list table) : option (list K) :=
  common_names (map table_allcolumns contents).

End Columns.

(** ** Further restatements of the engine *)

(** The context after a slice term: every position produced for a row
    inherits the context value of that row. *)
Definition spread_rows (counts advanced : list Z) : list Z :=
  concat (zip_with (fun n adv => replicate (Z.to_nat n) adv) counts advanced).

(** The rows of a ragged container over a flat buffer, as lists. *)
Definition rows_of (starts stops data : list Z) : list (list Z) :=
  zip_with (fun s t => pyslice data s t) starts stops.

(** A boolean mask replaced by the integer array of the positions where
    it holds. *)
Definition unmask (x : term) : term :=
  match x with
  | TBoolArray m => TIntArray (nonzero m)
  | _ => x
  end.

(** What a sliced array is: a flat buffer or the rows of a ragged
    container, sliced as a dense array slices its leading axis. *)
Definition dense_slice_array (a : Array) (start stop step : option Z)
  : result Array :=
  match a with
  | npscalar _ => Err NoLength
  | ndarray data =>
      let* data' := dense_slice data start stop step in Ok (ndarray data')
  | JaggedArray starts stops content =>
      let* starts' := dense_slice starts start stop step in
      let* stops' := dense_slice stops start stop step in
      Ok (JaggedArray starts' stops' content)
  end.

(** * Properties *)

(** ** Item access and scratch buffers *)

(** Case analysis on the integer comparisons of the goal, innermost first. *)
Ltac no_test t :=
  lazymatch t with
  | context [Z.ltb] => fail
  | context [Z.leb] => fail
  | context [Z.eqb] => fail
  | _ => idtac
  end.

Ltac zcases :=
  repeat match goal with
    | |- context [Z.ltb ?a ?b] =>
        no_test a; no_test b; destruct (Z.ltb_spec a b)
    | |- context [Z.leb ?a ?b] =>
        no_test a; no_test b; destruct (Z.leb_spec a b)
    | |- context [Z.eqb ?a ?b] =>
        no_test a; no_test b; destruct (Z.eqb_spec a b)
    end.

(** The same through the pairs and [let]s that the tests select. *)
Ltac zcases_deep := repeat (progress (zcases; cbv beta iota zeta)).

Lemma len_nonneg {A} (l : list A) : 0 <= len l.
Proof. unfold len. lia. Qed.

Lemma len_app {A} (l k : list A) : len (l ++ k) = len l + len k.
Proof. unfold len. rewrite length_app. lia. Qed.

Lemma len_nil {A} : len (@nil A) = 0.
Proof. done. Qed.

Lemma len_cons {A} (x : A) (l : list A) : len (x :: l) = 1 + len l.
Proof. unfold len. cbn [length]. lia. Qed.

Lemma len_map {A B} (f : A -> B) (l : list A) : len (map f l) = len l.
Proof. unfold len. by rewrite length_map. Qed.

Lemma len_drop {A} (n : nat) (l : list A) :
  (n <= length l)%nat -> len (drop n l) = len l - Z.of_nat n.
Proof. intros H. unfold len. rewrite length_drop. lia. Qed.

Ltac len_simpl :=
  repeat first [rewrite len_app | rewrite len_cons | rewrite len_map
               | rewrite (@len_nil Z) | rewrite len_nil].

Lemma range_len {A} (l : list A) : range (len l) = map Z.of_nat (seq 0 (length l)).
Proof. unfold range, len. by rewrite Nat2Z.id. Qed.

Lemma getitem_nonneg {A} (l : list A) (i : Z) :
  0 <= i -> getitem l i = match l !! Z.to_nat i with
                          | Some x => Ok x
                          | None => Err BufferIndex
                          end.
Proof. intros H. unfold getitem. zcases; try lia. done. Qed.

Lemma getitem_lookup {A} (l : list A) (i : nat) (x : A) :
  l !! i = Some x -> getitem l (Z.of_nat i) = Ok x.
Proof. intros H. rewrite getitem_nonneg by lia. by rewrite Nat2Z.id, H. Qed.

(** A negative position counts from the end of the buffer. *)
Lemma getitem_wraps {A} (l : list A) (i : Z) :
  - len l <= i < 0 -> getitem l i = getitem l (i + len l).
Proof. intros H. unfold getitem. zcases; try lia; done. Qed.

(** Writing at the first free position of a scratch buffer. *)
Lemma setitem_next {A} (pre suf : list A) (x v : A) (k : Z) :
  k = len pre -> setitem (pre ++ x :: suf) k v = Ok ((pre ++ [v]) ++ suf).
Proof.
  intros ->. unfold setitem. rewrite len_app.
  assert (len (x :: suf) = 1 + len suf) as -> by (unfold len; cbn; lia).
  pose proof (len_nonneg pre). pose proof (len_nonneg suf).
  zcases; try lia. cbn. f_equal.
  unfold len. rewrite Nat2Z.id.
  rewrite <- (Nat.add_0_r (length pre)), insert_app_r. cbn.
  by rewrite <- app_assoc.
Qed.

(** Writing past the end of a scratch buffer raises. *)
Lemma setitem_overflow {A} (buf : list A) (v : A) (k : Z) :
  len buf <= k -> setitem buf k v = Err BufferIndex.
Proof.
  intros H. unfold setitem. pose proof (len_nonneg buf).
  zcases; try lia; done.
Qed.

Lemma full_len (n : nat) (v : Z) : full (Z.of_nat n) v = Ok (replicate n v).
Proof. unfold full. zcases; try lia. by rewrite Nat2Z.id. Qed.


(** ** The integer term *)

Section IntegerTerm.

Variables (starts stops : list Z) (h : Z).
Hypothesis same_length : length starts = length stops.

Let row (st : Z * Z) : result Z :=
  let '(s, t) := st in
  if t <=? s + h then Err IntegerBeyondRange else Ok (s + h).

Let body (i : Z) (index : list Z) : result (list Z) :=
  let* s := getitem starts i in
  let j := s + h in
  let* t := getitem stops i in
  if t <=? j then Err IntegerBeyondRange else setitem index i j.

(** The loop invariant: after the rows below [k] the buffer holds their
    positions, followed by what is left of the filler. *)
Lemma integer_loop (m : nat) :
  forall (k : nat) (pre suf : list Z),
    length pre = k -> length suf = m -> (k + m)%nat = length starts ->
    for_each (map Z.of_nat (seq k m)) body (pre ++ suf)
    = let* vs := map_result row (drop k (zip starts stops)) in Ok (pre ++ vs).
Proof using same_length.
  induction m as [|m IH]; intros k pre suf Hpre Hsuf Hk.
  - destruct suf; [|done]. cbn.
    rewrite drop_ge; [done|]. rewrite length_zip_with. lia.
  - destruct suf as [|x suf]; [done|].
    destruct (lookup_lt_is_Some_2 starts k) as [s Hs]; [lia|].
    destruct (lookup_lt_is_Some_2 stops k) as [t Ht]; [lia|].
    assert (zip starts stops !! k = Some (s, t)) as Hz.
    { by rewrite lookup_zip_with, Hs; cbn; rewrite Ht. }
    rewrite (drop_S _ _ _ Hz). cbn [seq map for_each map_result].
    unfold body at 1, row at 1.
    rewrite (getitem_lookup _ _ _ Hs), (getitem_lookup _ _ _ Ht). cbn [rbind].
    destruct (t <=? s + h); [done|].
    rewrite (setitem_next pre suf x (s + h)) by (unfold len; lia).
    cbn [rbind]. rewrite IH; [|rewrite length_app; cbn; lia|by inversion Hsuf|lia].
    destruct (map_result row (drop (S k) (zip starts stops))); cbn; [|done].
    by rewrite <- app_assoc.
Qed.

(** The loop of the source computes the positions of the design. *)
Lemma integer_index_positions :
  integer_index starts stops h = integer_positions starts stops h.
Proof using same_length.
  unfold integer_index, integer_positions.
  unfold len at 1. rewrite full_len, range_len. cbn [rbind].
  etrans.
  { apply (integer_loop (length starts) 0 [] (replicate (length starts) 999));
      [done | by rewrite length_replicate | done]. }
  rewrite drop_0. unfold row.
  by destruct (map_result _ (zip starts stops)).
Qed.

End IntegerTerm.

(** A row whose position reaches its stop makes the integer term fail. *)
Lemma integer_positions_beyond (starts stops : list Z) (h : Z) :
  (exists (i : nat) (s t : Z),
      starts !! i = Some s /\ stops !! i = Some t /\ t <= s + h) ->
  integer_positions starts stops h = Err IntegerBeyondRange.
Proof.
  unfold integer_positions.
  revert stops. induction starts as [|s0 starts IH]; intros stops (i & s & t & Hs & Ht & Hle).
  - done.
  - destruct stops as [|t0 stops]; [done|]. cbn.
    destruct (Z.leb_spec t0 (s0 + h)) as [Hfail|Hok]; [done|]. cbn.
    destruct i as [|i]; [cbn in *; simplify_eq; lia|].
    rewrite (IH stops); [done|]. by exists i, s, t.
Qed.

(** Without such a row the positions are [starts[i] + h], row by row. *)
Lemma integer_positions_within (starts stops : list Z) (h : Z) :
  length starts = length stops ->
  (forall (i : nat) (s t : Z),
      starts !! i = Some s -> stops !! i = Some t -> s + h < t) ->
  integer_positions starts stops h = Ok (map (fun s => s + h) starts).
Proof.
  unfold integer_positions.
  revert stops. induction starts as [|s0 starts IH]; intros stops Hlen Hrows.
  - done.
  - destruct stops as [|t0 stops]; [done|]. cbn.
    pose proof (Hrows 0%nat s0 t0 eq_refl eq_refl).
    destruct (Z.leb_spec t0 (s0 + h)) as [Hfail|Hok]; [lia|]. cbn.
    rewrite (IH stops); [done|by inversion Hlen|].
    intros i s t Hs Ht. by apply (Hrows (S i)).
Qed.

(** C4. The integer term fails as a whole at the first row whose position
    reaches its stop, but with the [ValueError] of line 53, not with an
    [IndexError]: on the rows [[a, b]], [[]], [[c, d, e]] the term [10]
    raises it, and so does row 2 indexed with [10] from the entry routine,
    where the integer-array term of the same value raises the [IndexError]
    of line 134. *)
Theorem getitem_integer_raises_value_error
    (native : list Z -> list term -> result Array) :
  getitem_next native [TInt 10] scenario_rows None = Err IntegerBeyondRange
  /\ getitem_enter native scenario_rows [TInt 2; TInt 10] = Err IntegerBeyondRange
  /\ pyclass IntegerBeyondRange = ValueError
  /\ pyclass IntegerBeyondRange <> IndexError
  /\ getitem_next native [TIntArray [10]] scenario_rows None
     = Err AdvancedOutOfBounds
  /\ getitem_enter native scenario_rows [TInt 2; TIntArray [10]]
     = Err AdvancedOutOfBounds
  /\ pyclass AdvancedOutOfBounds = IndexError.
Proof. repeat split; done. Qed.










(** ** The slice term *)

Lemma range3_length (a b c : Z) :
  length (range3 a b c)
  = Z.to_nat (if 0 <? c then (b - a + c - 1) / c else (a - b + - c - 1) / - c).
Proof. unfold range3. by rewrite length_map, length_seq. Qed.

Lemma range3_empty_ascending (a b c : Z) : 0 < c -> b <= a -> range3 a b c = [].
Proof.
  intros Hc Hba. apply length_zero_iff_nil. rewrite range3_length.
  destruct (Z.ltb_spec 0 c); [|lia].
  assert ((b - a + c - 1) / c < 1); [|lia].
  apply Z.div_lt_upper_bound; lia.
Qed.

Lemma range3_empty_descending (a b c : Z) : c < 0 -> a <= b -> range3 a b c = [].
Proof.
  intros Hc Hab. apply length_zero_iff_nil. rewrite range3_length.
  destruct (Z.ltb_spec 0 c); [lia|].
  assert ((a - b + - c - 1) / - c < 1); [|lia].
  apply Z.div_lt_upper_bound; lia.
Qed.

(** A slice of a row yields at most as many positions as the row is long. *)
Lemma range3_length_bounded (a b c lo hi : Z) :
  c <> 0 -> lo <= a <= hi -> lo <= b <= hi ->
  (length (range3 a b c) <= Z.to_nat (hi - lo))%nat.
Proof.
  intros Hc Ha Hb. rewrite range3_length.
  destruct (Z.ltb_spec 0 c).
  - assert ((b - a + c - 1) / c < hi - lo + 1); [|lia].
    apply Z.div_lt_upper_bound; nia.
  - assert ((a - b + - c - 1) / - c < hi - lo + 1); [|lia].
    apply Z.div_lt_upper_bound; nia.
Qed.

(** The bounds of the source stay inside the clamping interval of the
    design. *)
Lemma slice3_bounds_clamped (length : Z) (start stop step : option Z) (a b c : Z) :
  0 <= length ->
  slice3_bounds length start stop step = (a, b, c) ->
  c = default 1 step
  /\ (0 < c -> 0 <= a <= length /\ 0 <= b <= length)
  /\ (c <= 0 -> -1 <= a <= length - 1 /\ -1 <= b <= length - 1).
Proof.
  intros Hlen. unfold slice3_bounds.
  destruct start as [a0|], stop as [b0|], step as [c0|]; cbn [default from_option id];
    zcases_deep; intros [= <- <- <-]; lia.
Qed.

(** They either are the bounds of the design or, where the source resets
    an empty slice to [0, 0], select no position, as those of the design. *)
Lemma slice3_bounds_dense (length : Z) (start stop step : option Z)
    (a b c a' b' c' : Z) :
  0 <= length ->
  step <> Some 0 ->
  slice3_bounds length start stop step = (a, b, c) ->
  dense_slice_bounds length start stop step = (a', b', c') ->
  c = c' /\ c <> 0
  /\ ((a, b) = (a', b') \/ (range3 a b c = [] /\ range3 a' b' c = [])).
Proof.
  intros Hlen Hstep. unfold slice3_bounds, dense_slice_bounds, clamp.
  destruct start as [a0|], stop as [b0|], step as [c0|]; cbn [default from_option id];
    try (assert (c0 <> 0) by congruence);
    zcases_deep; intros [= <- <- <-] [= <- <- <-];
    (split; [done|split; [lia|]]);
    first [ left; f_equal; lia
          | right; split;
            first [ apply range3_empty_ascending; lia
                  | apply range3_empty_descending; lia ] ].
Qed.

Lemma slice3_bounds_range (length : Z) (start stop step : option Z) :
  0 <= length ->
  step <> Some 0 ->
  (let '(a, b, c) := slice3_bounds length start stop step in range3 a b c)
  = (let '(a, b, c) := dense_slice_bounds length start stop step in range3 a b c).
Proof.
  intros Hlen Hstep.
  destruct (slice3_bounds length start stop step) as [[a b] c] eqn:Hs.
  destruct (dense_slice_bounds length start stop step) as [[a' b'] c'] eqn:Hd.
  destruct (slice3_bounds_dense _ _ _ _ _ _ _ _ _ _ Hlen Hstep Hs Hd)
    as (<- & _ & [[= <- <-]|[-> ->]]); done.
Qed.

Section SliceTerm.

Variables (starts stops : list Z) (start stop step : option Z).
Hypothesis same_length : length starts = length stops.
Hypothesis step_nonzero : step <> Some 0.
Hypothesis rows_ordered :
  forall (i : nat) (s t : Z), starts !! i = Some s -> stops !! i = Some t -> s <= t.

(** The inner loop (lines 110 to 112): the positions of one row are
    appended to the scratch buffer while it has room. *)
Lemma slice3_inner (i : Z) (s : Z) (js : list Z) :
  getitem starts i = Ok s ->
  forall (pre suf : list Z),
    for_each js
      (fun j '(index, k) =>
         let* s := getitem starts i in
         let* index := setitem index k (s + j) in
         Ok (index, k + 1))
      (pre ++ suf, len pre)
    = if len js <=? len suf
      then Ok (pre ++ map (Z.add s) js ++ drop (length js) suf, len pre + len js)
      else Err BufferIndex.
Proof.
  intros Hs. induction js as [|j js IH]; intros pre suf.
  - cbn [for_each map length drop app]. len_simpl.
    pose proof (len_nonneg suf). zcases; [|lia]. by rewrite Z.add_0_r.
  - cbn [for_each]. rewrite Hs at 1. cbn [rbind].
    pose proof (len_nonneg js).
    destruct suf as [|x suf].
    + rewrite setitem_overflow by (len_simpl; lia).
      cbn [rbind]. len_simpl. by zcases; [lia|].
    + rewrite (setitem_next pre suf x (s + j)) by done. cbn [rbind].
      replace (len pre + 1) with (len (pre ++ [s + j])) by (len_simpl; lia).
      rewrite IH. len_simpl. cbn [length map drop].
      zcases; try lia; [|done].
      f_equal. f_equal; [by rewrite <- app_assoc | lia].
Qed.

Let body (i : Z) (st : list Z * list Z * list Z * Z)
  : result (list Z * list Z * list Z * Z) :=
  let '(starts', stops', index, k) := st in
  let* t := getitem stops i in
  let* s := getitem starts i in
  let length := t - s in
  let '(a, b, c) := slice3_bounds length start stop step in
  let* starts' := setitem starts' i k in
  let* (index, k) :=
    for_each (range3 a b c)
      (fun j '(index, k) =>
         let* s := getitem starts i in
         let* index := setitem index k (s + j) in
         Ok (index, k + 1))
      (index, k) in
  let* stops' := setitem stops' i k in
  Ok (starts', stops', index, k).

(** The loop invariant: after the rows below [i], the boundaries written
    so far are followed by filler, and the scratch buffer holds the
    positions produced so far. *)
Lemma slice3_loop (m : nat) :
  forall (i : nat) (ps ss pt st pre suf : list Z),
    length ps = i -> length pt = i -> length ss = m -> length st = m ->
    (i + m)%nat = length starts ->
    for_each (map Z.of_nat (seq i m)) body (ps ++ ss, pt ++ st, pre ++ suf, len pre)
    = let rows := slice_rows (drop i starts) (drop i stops) start stop step in
      if len (concat rows) <=? len suf
      then Ok (ps ++ row_starts_from (len pre) rows,
               pt ++ row_stops_from (len pre) rows,
               pre ++ concat rows ++ drop (length (concat rows)) suf,
               len pre + len (concat rows))
      else Err BufferIndex.
Proof using same_length step_nonzero rows_ordered.
  induction m as [|m IH]; intros i ps ss pt st pre suf Hps Hpt Hss Hst Him.
  - destruct ss; [|done]. destruct st; [|done].
    rewrite !drop_ge by lia.
    cbn [seq map for_each slice_rows zip_with concat row_starts_from
           row_stops_from length drop app].
    len_simpl. pose proof (len_nonneg suf). zcases; [|lia].
    by rewrite !app_nil_r, Z.add_0_r.
  - destruct ss as [|x ss]; [done|]. destruct st as [|y st]; [done|].
    destruct (lookup_lt_is_Some_2 starts i) as [s Hs]; [lia|].
    destruct (lookup_lt_is_Some_2 stops i) as [t Ht]; [lia|].
    rewrite (drop_S _ _ _ Hs), (drop_S _ _ _ Ht).
    cbn [seq map for_each]. unfold body at 1.
    rewrite (getitem_lookup _ _ _ Ht). cbn [rbind].
    rewrite (getitem_lookup _ _ _ Hs) at 1. cbn [rbind].
    pose proof (rows_ordered i s t Hs Ht) as Hst'.
    pose proof (slice3_bounds_range (t - s) start stop step
                  ltac:(lia) step_nonzero) as Hrange.
    destruct (slice3_bounds (t - s) start stop step) as [[a b] c].
    rewrite (setitem_next ps ss x (len pre)) by (unfold len; lia).
    cbn [rbind].
    rewrite (slice3_inner (Z.of_nat i) s (range3 a b c)
               (getitem_lookup _ _ _ Hs) pre suf).
    unfold slice_rows. cbn [zip_with map concat].
    fold (slice_rows (drop (S i) starts) (drop (S i) stops) start stop step).
    set (rows := slice_rows (drop (S i) starts) (drop (S i) stops) start stop step).
    assert ((let '(a0, b0, c0) := dense_slice_bounds (t - s) start stop step in
             map (Z.add s) (range3 a0 b0 c0)) = map (Z.add s) (range3 a b c))
      as ->.
    { rewrite Hrange. by destruct (dense_slice_bounds _ _ _ _) as [[??]?]. }
    set (js := range3 a b c).
    pose proof (len_nonneg js).
    pose proof (len_nonneg (concat rows)).
    pose proof (len_nonneg suf).
    len_simpl.
    destruct (Z.leb_spec (len js) (len suf)) as [Hroom|Hfull]; cbn [rbind].
    + rewrite (setitem_next pt st y) by (unfold len; lia). cbn [rbind].
      replace (len pre + len js) with (len (pre ++ map (Z.add s) js))
        by (len_simpl; lia).
      rewrite (app_assoc pre).
      rewrite (IH (S i));
        [|rewrite length_app; cbn; lia|rewrite length_app; cbn; lia
         |cbn in Hss; lia|cbn in Hst; lia|lia].
      fold rows. cbv zeta.
      rewrite len_drop by (unfold len in *; lia).
      fold (len js).
      zcases; try lia; [|done].
      cbn [row_starts_from row_stops_from]. len_simpl.
      f_equal. f_equal; [f_equal; [f_equal|]|].
      * by rewrite <- app_assoc.
      * by rewrite <- app_assoc.
      * rewrite <- !app_assoc. do 2 f_equal.
        by rewrite drop_drop, length_app, length_map.
      * lia.
    + by zcases; [lia|].
Qed.

(** The whole loop: the rows of the design, their boundaries, and the
    scratch buffer filled from the left, provided the buffer, sized by the
    content, has room for the positions. *)
Lemma slice3_index_rows (content_len : nat) :
  slice3_index starts stops (Z.of_nat content_len) start stop step
  = let rows := slice_rows starts stops start stop step in
    if len (concat rows) <=? Z.of_nat content_len
    then Ok (row_starts_from 0 rows, row_stops_from 0 rows,
             concat rows
               ++ replicate (content_len - length (concat rows)) 999,
             len (concat rows))
    else Err BufferIndex.
Proof using same_length step_nonzero rows_ordered.
  unfold slice3_index. unfold len at 1 2. rewrite !full_len, range_len.
  cbn [rbind].
  etrans.
  { apply (slice3_loop (length starts) 0 [] (replicate (length starts) 999)
             [] (replicate (length stops) 999) []
             (replicate content_len 999));
      rewrite ?length_replicate; done. }
  rewrite !drop_0. cbv zeta. len_simpl. unfold len at 2.
  rewrite length_replicate, drop_replicate. cbn [app].
  by rewrite Z.add_0_l.
Qed.

End SliceTerm.

Lemma pyslice_prefix {A} (l r : list A) : pyslice (l ++ r) 0 (len l) = l.
Proof.
  unfold pyslice, slice_bound. len_simpl.
  pose proof (len_nonneg l). pose proof (len_nonneg r).
  zcases; try lia.
  replace (Z.max 0 (Z.min (len l + len r) 0)) with 0 by lia.
  replace (Z.max 0 (Z.min (len l + len r) (len l))) with (len l) by lia.
  change (Z.to_nat 0) with 0%nat. rewrite drop_0, Z.sub_0_r.
  unfold len. rewrite Nat2Z.id. by rewrite take_app_length.
Qed.

(** The bounds of the design are inside the clamping interval. *)
Lemma dense_slice_bounds_clamped (length : Z) (start stop step : option Z)
    (a b c : Z) :
  0 <= length ->
  dense_slice_bounds length start stop step = (a, b, c) ->
  (0 < c -> 0 <= a <= length /\ 0 <= b <= length)
  /\ (c <= 0 -> -1 <= a <= length - 1 /\ -1 <= b <= length - 1).
Proof.
  intros Hlen. unfold dense_slice_bounds, clamp.
  destruct start as [a0|], stop as [b0|], step as [c0|];
    cbn [default from_option id]; zcases_deep; intros [= <- <- <-]; lia.
Qed.

(** A slice produces at most as many positions as the rows have items. *)
Lemma slice_rows_total (starts stops : list Z) (start stop step : option Z) :
  step <> Some 0 ->
  (forall (i : nat) (s t : Z),
      starts !! i = Some s -> stops !! i = Some t -> s <= t) ->
  len (concat (slice_rows starts stops start stop step))
  <= total_count starts stops.
Proof.
  intros Hstep. unfold total_count, slice_rows.
  revert stops. induction starts as [|s starts IH]; intros stops Hrows.
  - by destruct stops.
  - destruct stops as [|t stops]; [done|].
    cbn [zip_with map concat foldr]. len_simpl.
    specialize (IH stops (fun i => Hrows (S i))).
    pose proof (Hrows 0%nat s t eq_refl eq_refl) as Hst.
    destruct (dense_slice_bounds (t - s) start stop step) as [[a b] c] eqn:Hd.
    len_simpl.
    destruct (dense_slice_bounds_clamped (t - s) _ _ _ _ _ _ ltac:(lia) Hd)
      as [Hasc Hdesc].
    assert (c <> 0) as Hc.
    { unfold dense_slice_bounds in Hd. injection Hd as _ _ <-.
      destruct step as [c0|]; cbn; [congruence|lia]. }
    assert (len (range3 a b c) <= t - s); [|lia].
    unfold len. destruct (Z.lt_ge_cases 0 c).
    + pose proof (range3_length_bounded a b c 0 (t - s) Hc
                    (proj1 (Hasc ltac:(lia))) (proj2 (Hasc ltac:(lia)))). lia.
    + pose proof (range3_length_bounded a b c (-1) (t - s - 1) Hc
                    (proj1 (Hdesc ltac:(lia))) (proj2 (Hdesc ltac:(lia)))). lia.
Qed.

Lemma array_len_nonneg (content : Array) (n : Z) :
  array_len content = Ok n -> n = Z.of_nat (Z.to_nat n).
Proof.
  destruct content; cbn; intros [= <-]; unfold len; by rewrite Nat2Z.id.
Qed.

(** The normalization of a slice term, where the scratch buffer is large
    enough. Step [0] is an error; otherwise the bounds the engine computes
    for a row from the row's own length carry the step of the term (1 when
    omitted), lie in [[0, len]] for an ascending and in [[-1, len-1]] for a
    descending step, and select the positions of the dense-array rule
    (omitted start and stop replaced by their defaults, negative ones offset
    by [len], both clamped); when the rows have at most as many items as
    the content, the step returns the rows of the rule over the content
    gathered at these positions. *)
Lemma getitem_slice3_normalizes
    (native : list Z -> list term -> result Array)
    (starts stops : list Z) (content : Array) (start stop step : option Z)
    (tail : list term) (advanced : option (list Z)) (n : Z) :
  length starts = length stops ->
  (forall (i : nat) (s t : Z),
      starts !! i = Some s -> stops !! i = Some t -> s <= t) ->
  array_len content = Ok n ->
  total_count starts stops <= n ->
  (step = Some 0 ->
   getitem_next native (TSlice start stop step :: tail)
     (JaggedArray starts stops content) advanced = Err SliceStepZero)
  /\ (step <> Some 0 ->
      (forall (i : nat) (s t a b c : Z),
          starts !! i = Some s -> stops !! i = Some t ->
          slice3_bounds (t - s) start stop step = (a, b, c) ->
          c = default 1 step
          /\ (0 < c -> 0 <= a <= t - s /\ 0 <= b <= t - s)
          /\ (c <= 0 -> -1 <= a <= t - s - 1 /\ -1 <= b <= t - s - 1)
          /\ range3 a b c
             = (let '(a', b', c') := dense_slice_bounds (t - s) start stop step in
                range3 a' b' c'))
      /\ getitem_next native (TSlice start stop step :: tail)
           (JaggedArray starts stops content) advanced
         = (let rows := slice_rows starts stops start stop step in
            let* c := array_take content (concat rows) in
            let* adv :=
              spread_advanced (row_starts_from 0 rows) (row_stops_from 0 rows)
                advanced in
            let* nxt := getitem_next native tail c adv in
            Ok (JaggedArray (row_starts_from 0 rows) (row_stops_from 0 rows) nxt))).
Proof.
  intros Hlen Hrows Hn Htotal. split.
  - intros ->. reflexivity.
  - intros Hstep. split.
    + intros i s t a b c Hs Ht Hb.
      pose proof (Hrows i s t Hs Ht) as Hst.
      destruct (slice3_bounds_clamped (t - s) _ _ _ _ _ _ ltac:(lia) Hb)
        as (Hc & Hasc & Hdesc).
      repeat split; try (apply Hasc; lia); try (apply Hdesc; lia); [done|].
      pose proof (slice3_bounds_range (t - s) start stop step ltac:(lia) Hstep)
        as Hrange.
      by rewrite Hb in Hrange.
    + cbn [getitem_next]. unfold getitem_slice3.
      assert (match step with Some 0 => true | _ => false end = false) as ->.
      { by destruct step as [[| |]|]. }
      rewrite Hn. cbn [rbind]. rewrite (array_len_nonneg _ _ Hn).
      rewrite slice3_index_rows by done. cbv zeta.
      pose proof (slice_rows_total starts stops start stop step Hstep Hrows).
      pose proof (array_len_nonneg _ _ Hn).
      destruct (Z.leb_spec (len (concat (slice_rows starts stops start stop step)))
                  (Z.of_nat (Z.to_nat n))) as [_|?]; [|lia].
      cbn [rbind]. by rewrite pyslice_prefix.
Qed.

Lemma getitem_slice3_normalizes_witness :
  total_count [0; 2; 2] [2; 2; 5] <= 5
  /\ getitem_next flat_rejects [TSlice (Some (-10)) (Some 10) None]
       scenario_rows None
     = Ok (JaggedArray [0; 2; 2] [2; 2; 5] (ndarray [10; 20; 30; 40; 50])).
Proof.
  assert (total_count [0; 2; 2] [2; 2; 5] <= 5) as Htotal by (cbn; lia).
  split; [exact Htotal|].
  assert (forall (i : nat) (s t : Z),
             [0; 2; 2] !! i = Some s -> [2; 2; 5] !! i = Some t -> s <= t) as Hrows.
  { intros [|[|[|i]]] s t Hs Ht; cbn in *; simplify_eq; lia. }
  destruct (getitem_slice3_normalizes flat_rejects [0; 2; 2] [2; 2; 5]
              (ndarray [10; 20; 30; 40; 50]) (Some (-10)) (Some 10) None []
              None 5 eq_refl Hrows eq_refl Htotal) as [_ Hstep].
  destruct (Hstep ltac:(done)) as [_ Heq]. exact Heq.
Defined.

(** C5. Out-of-range bounds of a slice do not always clip silently: the
    scratch buffer of line 64 has [len(array.content)] positions ("too big,
    but okay"), and rows that overlap produce more. The two rows [[a, b,
    c]] over the same three items, sliced with [-10:10], raise numpy's
    [IndexError] at line 111 where the dense rule returns both rows whole;
    so does [a[[0, 0, 0, 0, 0], -10:10]] on the 4 x 4 x 4 array of the
    study, which the dense array answers. *)
Theorem getitem_slice3_overlapping_rows
    (native : list Z -> list term -> result Array) :
  getitem_next native [TSlice (Some (-10)) (Some 10) None]
    (JaggedArray [0; 0] [3; 3] (ndarray [10; 20; 30])) None = Err BufferIndex
  /\ pyclass BufferIndex = IndexError
  /\ map_result (fun row => dense_slice row (Some (-10)) (Some 10) None)
       (rows_of [0; 0] [3; 3] [10; 20; 30])
     = Ok [[10; 20; 30]; [10; 20; 30]]
  /\ engine_tolist native 2 (arange3 4 4 4)
       [TIntArray [0; 0; 0; 0; 0]; TSlice (Some (-10)) (Some 10) None]
     = Err BufferIndex
  /\ (exists x : nested,
        dense_getitem (Node (arange3 4 4 4))
          [TIntArray [0; 0; 0; 0; 0]; TSlice (Some (-10)) (Some 10) None]
        = Ok x).
Proof.
  split; [reflexivity|]. split; [done|]. split; [reflexivity|].
  split; [by vm_compute|]. eexists. by vm_compute.
Qed.

(** ** The integer-array term *)

Lemma map_result_length {A B} (f : A -> result B) (l : list A) (vs : list B) :
  map_result f l = Ok vs -> length vs = length l.
Proof.
  revert vs. induction l as [|x l IH]; intros vs; cbn.
  - by intros [= <-].
  - destruct (f x) as [y|]; [|done]. cbn.
    destruct (map_result f l) as [ys|]; [|done]. cbn.
    intros [= <-]. cbn. by rewrite (IH ys).
Qed.

Section IntArrayTerm.

Variables (starts stops head : list Z).
Hypothesis same_length : length starts = length stops.

(** The inner loop of [getitem_intarray_none] (lines 129 to 137): the
    entries of the term from [j0] on, against one row. *)
Lemma intarray_none_inner (i s length : Z) :
  getitem starts i = Ok s ->
  forall (m j0 : nat) (pre suf pa sa : list Z),
    (j0 + m)%nat = List.length head ->
    (m <= List.length suf)%nat -> (m <= List.length sa)%nat ->
    len pa = len pre ->
    for_each (map Z.of_nat (seq j0 m))
      (fun j '(index, nextadvanced, k) =>
         let* norm := getitem head j in
         let norm := if norm <? 0 then norm + length else norm in
         if (norm <? 0) || (length <=? norm) then Err AdvancedOutOfBounds
         else
           let* s := getitem starts i in
           let* index := setitem index k (s + norm) in
           let* nextadvanced := setitem nextadvanced k j in
           Ok (index, nextadvanced, k + 1))
      (pre ++ suf, pa ++ sa, len pre)
    = let* vs :=
        map_result (fun x => let* v := normalized length x in Ok (s + v))
          (drop j0 head) in
      Ok (pre ++ vs ++ drop m suf,
          pa ++ map Z.of_nat (seq j0 m) ++ drop m sa,
          len pre + Z.of_nat m).
Proof.
  intros Hs. induction m as [|m IH]; intros j0 pre suf pa sa Hj Hsuf Hsa Hpa.
  - rewrite drop_ge by lia. cbn. by rewrite Z.add_0_r.
  - destruct (lookup_lt_is_Some_2 head j0) as [x Hx]; [lia|].
    rewrite (drop_S _ _ _ Hx). cbn [seq map for_each map_result].
    rewrite (getitem_lookup _ _ _ Hx). cbn [rbind]. unfold normalized at 1.
    destruct ((_ <? 0) || (length <=? _)); [done|]. cbn [rbind].
    rewrite Hs at 1. cbn [rbind].
    destruct suf as [|y suf]; [cbn in Hsuf; lia|].
    destruct sa as [|z sa]; [cbn in Hsa; lia|].
    rewrite (setitem_next pre suf y) by done. cbn [rbind].
    rewrite (setitem_next pa sa z) by done. cbn [rbind].
    replace (len pre + 1) with (len (pre ++ [s + (if x <? 0 then x + length else x)]))
      by (len_simpl; lia).
    rewrite (IH (S j0)); [|lia|cbn in Hsuf; lia|cbn in Hsa; lia|len_simpl; lia].
    destruct (map_result _ (drop (S j0) head)) as [vs|]; [|done].
    cbn [rbind drop]. len_simpl. rewrite <- !app_assoc.
    do 2 f_equal. lia.
Qed.

(** The loop invariant of [getitem_intarray_none]. *)
Lemma intarray_none_loop (m : nat) :
  forall (i : nat) (ps ss pt st pre suf pa sa : list Z),
    length ps = i -> length pt = i -> length ss = m -> length st = m ->
    (i + m)%nat = length starts ->
    length suf = (m * length head)%nat -> length sa = (m * length head)%nat ->
    len pa = len pre ->
    for_each (map Z.of_nat (seq i m))
      (fun i '(starts', stops', index, nextadvanced, k) =>
         let* t := getitem stops i in
         let* s := getitem starts i in
         let length := t - s in
         let* starts' := setitem starts' i k in
         let* (index, nextadvanced, k) :=
           for_each (range (len head))
             (fun j '(index, nextadvanced, k) =>
                let* norm := getitem head j in
                let norm := if norm <? 0 then norm + length else norm in
                if (norm <? 0) || (length <=? norm) then Err AdvancedOutOfBounds
                else
                  let* s := getitem starts i in
                  let* index := setitem index k (s + norm) in
                  let* nextadvanced := setitem nextadvanced k j in
                  Ok (index, nextadvanced, k + 1))
             (index, nextadvanced, k) in
         let* stops' := setitem stops' i k in
         Ok (starts', stops', index, nextadvanced, k))
      (ps ++ ss, pt ++ st, pre ++ suf, pa ++ sa, len pre)
    = let* rows := outer_rows (drop i starts) (drop i stops) head in
      Ok (ps ++ row_starts_from (len pre) rows,
          pt ++ row_stops_from (len pre) rows,
          pre ++ concat rows,
          pa ++ outer_context m head,
          len pre + len (concat rows)).
Proof using same_length.
  induction m as [|m IH];
    intros i ps ss pt st pre suf pa sa Hps Hpt Hss Hst Him Hsuf Hsa Hpa.
  - destruct ss; [|done]. destruct st; [|done].
    destruct suf; [|done]. destruct sa; [|done].
    rewrite !drop_ge by lia. cbn. by rewrite !app_nil_r, Z.add_0_r.
  - destruct ss as [|x ss]; [done|]. destruct st as [|y st]; [done|].
    destruct (lookup_lt_is_Some_2 starts i) as [s Hs]; [lia|].
    destruct (lookup_lt_is_Some_2 stops i) as [t Ht]; [lia|].
    rewrite (drop_S _ _ _ Hs), (drop_S _ _ _ Ht).
    cbn [seq map for_each].
    rewrite (getitem_lookup _ _ _ Ht). cbn [rbind].
    rewrite (getitem_lookup _ _ _ Hs) at 1. cbn [rbind].
    rewrite (setitem_next ps ss x (len pre)) by (unfold len; lia).
    cbn [rbind]. rewrite (range_len head) at 1.
    pose proof (intarray_none_inner (Z.of_nat i) s (t - s)
                  (getitem_lookup _ _ _ Hs) (length head) 0 pre suf pa sa
                  eq_refl ltac:(lia) ltac:(lia) Hpa) as Hinner.
    cbv zeta in Hinner, IH |- *. rewrite Hinner. clear Hinner.
    rewrite drop_0. unfold outer_rows. cbn [zip_with map_result].
    destruct (map_result (fun x0 => let* v := normalized (t - s) x0 in Ok (s + v))
                head) as [vs|] eqn:Hvs; [|done].
    cbn [rbind]. pose proof (map_result_length _ _ _ Hvs) as Hlen.
    rewrite (setitem_next pt st y) by (unfold len; lia). cbn [rbind].
    replace (len pre + Z.of_nat (length head)) with (len (pre ++ vs))
      by (len_simpl; unfold len; lia).
    rewrite (app_assoc pre), (app_assoc pa).
    rewrite (IH (S i));
      [|rewrite length_app; cbn; lia|rewrite length_app; cbn; lia
       |cbn in Hss; lia|cbn in Hst; lia|lia
       |rewrite length_drop; lia|rewrite length_drop; lia
       |len_simpl; unfold len in *; rewrite length_seq; lia].
    fold (outer_rows (drop (S i) starts) (drop (S i) stops) head).
    destruct (outer_rows (drop (S i) starts) (drop (S i) stops) head)
      as [rows|]; [|done].
    cbn [rbind concat row_starts_from row_stops_from]. len_simpl.
    unfold outer_context. cbn [replicate concat]. rewrite range_len.
    rewrite <- !app_assoc. cbn [app].
    replace (len vs) with (Z.of_nat (length head)) by (unfold len; lia).
    by rewrite Z.add_assoc.
Qed.

(** The loop of the source computes the positions and the context of the
    design. *)
Lemma intarray_none_index_rows :
  intarray_none_index starts stops head
  = let* rows := outer_rows starts stops head in
    Ok (row_starts_from 0 rows, row_stops_from 0 rows, concat rows,
        outer_context (length starts) head).
Proof using same_length.
  unfold intarray_none_index. unfold len at 1 2.
  rewrite !full_len. cbn [rbind].
  replace (len head * len starts)
    with (Z.of_nat (length starts * length head)) by (unfold len; lia).
  rewrite full_len. cbn [rbind].
  unfold len at 1. rewrite length_replicate, full_len, (range_len starts).
  cbn [rbind].
  pose proof (intarray_none_loop (length starts) 0 []
                (replicate (length starts) 999) [] (replicate (length stops) 999)
                [] (replicate (length starts * length head) 999)
                [] (replicate (length starts * length head) 999)
                eq_refl eq_refl) as Hloop.
  rewrite !length_replicate in Hloop.
  specialize (Hloop eq_refl (eq_sym same_length) eq_refl eq_refl eq_refl eq_refl).
  cbn [app] in Hloop. change (len []) with 0 in Hloop.
  rewrite Hloop, !drop_0.
  by destruct (outer_rows starts stops head) as [rows|].
Qed.

End IntArrayTerm.

Section IntArrayContext.

Variables (starts stops head advanced : list Z).
Hypothesis same_length : length starts = length stops.
Hypothesis context_length : length advanced = length starts.

Let row (sta : Z * Z * Z) : result Z :=
  let '(s, t, adv) := sta in
  if len head <=? adv then Err AdvancedLengthMismatch
  else
    let* x := getitem head adv in
    let* v := normalized (t - s) x in
    Ok (s + v).

(** The loop invariant of [getitem_intarray_some]. *)
Lemma intarray_some_loop (m : nat) :
  forall (i : nat) (pre suf pa sa : list Z),
    length pre = i -> length pa = i -> length suf = m -> length sa = m ->
    (i + m)%nat = length starts ->
    for_each (map Z.of_nat (seq i m))
      (fun i '(index, nextadvanced) =>
         let* t := getitem stops i in
         let* s := getitem starts i in
         let length := t - s in
         let* adv := getitem advanced i in
         if len head <=? adv then Err AdvancedLengthMismatch
         else
           let* adv := getitem advanced i in
           let* normj := getitem head adv in
           let normj := if normj <? 0 then normj + length else normj in
           if (normj <? 0) || (length <=? normj) then Err AdvancedOutOfBounds
           else
             let* s := getitem starts i in
             let* index := setitem index i (s + normj) in
             let* nextadvanced := setitem nextadvanced i i in
             Ok (index, nextadvanced))
      (pre ++ suf, pa ++ sa)
    = let* vs := map_result row (drop i (zip (zip starts stops) advanced)) in
      Ok (pre ++ vs, pa ++ map Z.of_nat (seq i m)).
Proof using same_length context_length.
  induction m as [|m IH]; intros i pre suf pa sa Hpre Hpa Hsuf Hsa Him.
  - destruct suf; [|done]. destruct sa; [|done].
    rewrite drop_ge by (rewrite !length_zip_with; lia). done.
  - destruct suf as [|x suf]; [done|]. destruct sa as [|y sa]; [done|].
    destruct (lookup_lt_is_Some_2 starts i) as [s Hs]; [lia|].
    destruct (lookup_lt_is_Some_2 stops i) as [t Ht]; [lia|].
    destruct (lookup_lt_is_Some_2 advanced i) as [adv Ha]; [lia|].
    assert (zip (zip starts stops) advanced !! i = Some (s, t, adv)) as Hz.
    { rewrite !lookup_zip_with, Hs. cbn. rewrite Ht. cbn. by rewrite Ha. }
    rewrite (drop_S _ _ _ Hz). cbn [seq map for_each map_result].
    cbv zeta in IH |- *.
    rewrite (getitem_lookup _ _ _ Ht). cbn [rbind].
    rewrite (getitem_lookup _ _ _ Hs) at 1. cbn [rbind].
    rewrite (getitem_lookup _ _ _ Ha) at 1. cbn [rbind].
    unfold row at 1.
    destruct (len head <=? adv); [done|].
    rewrite (getitem_lookup _ _ _ Ha) at 1. cbn [rbind].
    destruct (getitem head adv) as [normj|]; [|done]. cbn [rbind].
    unfold normalized.
    destruct ((_ <? 0) || (t - s <=? _)); [done|]. cbn [rbind].
    rewrite (getitem_lookup _ _ _ Hs) at 1. cbn [rbind].
    rewrite (setitem_next pre suf x) by (unfold len; lia). cbn [rbind].
    rewrite (setitem_next pa sa y) by (unfold len; lia). cbn [rbind].
    rewrite (IH (S i));
      [|rewrite length_app; cbn; lia|rewrite length_app; cbn; lia
       |cbn in Hsuf; lia|cbn in Hsa; lia|lia].
    destruct (map_result row _) as [vs|]; [|done].
    cbn [rbind]. by rewrite <- !app_assoc.
Qed.

(** The loop of the source computes the positions of the design and sets
    the context of row [i] to [i]. *)
Lemma intarray_some_index_positions :
  intarray_some_index starts stops head advanced
  = let* index := vectorized_positions starts stops head advanced in
    Ok (index, range (len starts)).
Proof using same_length context_length.
  unfold intarray_some_index. unfold len at 1. rewrite full_len.
  cbn [rbind]. unfold len at 1. rewrite length_replicate, full_len.
  cbn [rbind]. rewrite (range_len advanced), (range_len starts).
  pose proof (intarray_some_loop (length starts) 0 []
                (replicate (length starts) 999) []
                (replicate (length starts) 999) eq_refl eq_refl) as Hloop.
  rewrite !length_replicate in Hloop. specialize (Hloop eq_refl eq_refl eq_refl).
  cbn [app] in Hloop. rewrite context_length, Hloop, drop_0.
  unfold vectorized_positions, row.
  by destruct (map_result _ _).
Qed.

(** Whatever makes the vectorized lookup fail is an index error, for
    Python and for the design. *)
Lemma vectorized_positions_error (e : error) :
  vectorized_positions starts stops head advanced = Err e ->
  pyclass e = IndexError /\ condition_of e = Some IndexErrorCondition.
Proof.
  unfold vectorized_positions.
  induction (zip (zip starts stops) advanced) as [|[[s t] adv] l IH]; cbn.
  - done.
  - destruct (len head <=? adv); [by intros [= <-]|].
    unfold getitem, normalized.
    repeat (match goal with
            | |- context [if ?b then _ else _] => destruct b
            | |- context [match ?o with Some _ => _ | None => _ end] =>
                destruct o
            end; cbn [rbind]);
      try (by intros [= <-]);
      (destruct (map_result _ l); [done|]; cbn; intros [= <-]; by apply IH).
Qed.

End IntArrayContext.

(** C3. An integer-array term met with the context unset gathers
    [starts[i] + normalized(term[j])] for every row [i] and every entry [j],
    and continues with a new context whose value at each produced position
    is the entry [j] that produced it. Met with a context as long as the
    rows, it gathers one position per row, [starts[i] +
    normalized(term[context[i]])], continues with the context of row [i]
    set to [i], and whatever makes the lookup fail (a context value at or
    beyond the length of the term, a normalized value outside the row) is
    an index error. *)
Theorem getitem_intarray_context
    (native : list Z -> list term -> result Array)
    (starts stops : list Z) (content : Array) (head : list Z)
    (tail : list term) :
  length starts = length stops ->
  getitem_next native (TIntArray head :: tail) (JaggedArray starts stops content)
    None
  = (let* rows := outer_rows starts stops head in
     let* c := array_take content (concat rows) in
     let* nxt :=
       getitem_next native tail c (Some (outer_context (length starts) head)) in
     Ok (JaggedArray (row_starts_from 0 rows) (row_stops_from 0 rows) nxt))
  /\ (forall advanced : list Z,
        length advanced = length starts ->
        getitem_next native (TIntArray head :: tail)
          (JaggedArray starts stops content) (Some advanced)
        = (let* index := vectorized_positions starts stops head advanced in
           let* c := array_take content index in
           getitem_next native tail c (Some (range (len starts))))
        /\ (forall e : error,
              vectorized_positions starts stops head advanced = Err e ->
              getitem_next native (TIntArray head :: tail)
                (JaggedArray starts stops content) (Some advanced) = Err e
              /\ pyclass e = IndexError
              /\ condition_of e = Some IndexErrorCondition)).
Proof.
  intros Hlen. split.
  - cbn [getitem_next]. unfold getitem_intarray_none.
    rewrite intarray_none_index_rows by done.
    by destruct (outer_rows starts stops head).
  - intros advanced Hadv.
    assert (getitem_next native (TIntArray head :: tail)
              (JaggedArray starts stops content) (Some advanced)
            = (let* index := vectorized_positions starts stops head advanced in
               let* c := array_take content index in
               getitem_next native tail c (Some (range (len starts))))) as Heq.
    { cbn [getitem_next]. unfold getitem_intarray_some.
      rewrite intarray_some_index_positions by done.
      by destruct (vectorized_positions starts stops head advanced). }
    split; [exact Heq|]. intros e He. split.
    + by rewrite Heq, He.
    + by apply (vectorized_positions_error starts stops head advanced).
Qed.

Lemma getitem_intarray_context_witness :
  length [0; 2] = length [2; 5]
  /\ getitem_next flat_rejects [TIntArray [-1; 0]]
       (JaggedArray [0; 2] [2; 5] (ndarray [10; 20; 30; 40; 50])) None
     = Ok (JaggedArray [0; 2] [2; 4] (ndarray [20; 10; 50; 30])).
Proof.
  split; [reflexivity|].
  exact (proj1 (getitem_intarray_context flat_rejects [0; 2] [2; 5]
                  (ndarray [10; 20; 30; 40; 50]) [-1; 0] [] eq_refl)).
Defined.

(** ** The engine against the dense reference *)

Lemma nested_eqb_eq : forall a b : nested, nested_eqb a b = true -> a = b.
Proof.
  fix IH 1. intros [x|l] [y|m]; cbn; try done.
  - by intros ->%Z.eqb_eq.
  - intros H. f_equal. revert m H.
    induction l as [|a l IHl]; intros [|b m]; try done.
    intros [Hab Hlm]%andb_prop. f_equal; [by apply IH | by apply IHl].
Qed.

Lemma same_lists_eq (r1 r2 : result nested) :
  same_lists r1 r2 = true -> exists x : nested, r1 = Ok x /\ r2 = Ok x.
Proof.
  destruct r1 as [x|], r2 as [y|]; cbn; try done.
  intros ->%nested_eqb_eq. by exists y.
Qed.

Lemma forallb_Forall {A} (f : A -> bool) (l : list A) :
  forallb f l = true -> Forall (fun x => f x = true) l.
Proof.
  induction l as [|x l IH]; cbn; [constructor|].
  intros [Hx Hl]%andb_prop. constructor; [done | by apply IH].
Qed.

(** The assertions of the study hold: on the two arrays of lines 216 and
    225, every expression of one, two or three of the nine terms gives the
    nested lists the dense array gives. *)
Lemma study_assertions (native : list Z -> list term -> result Array) :
  Forall (fun terms =>
            exists x : nested,
              engine_tolist native 3 (arange4 4 4 4 4) terms = Ok x
              /\ dense_getitem (Node (arange4 4 4 4 4)) terms = Ok x)
    (expressions study_slices)
  /\ Forall (fun terms =>
               exists x : nested,
                 engine_tolist native 2 (arange3 4 4 4) terms = Ok x
                 /\ dense_getitem (Node (arange3 4 4 4)) terms = Ok x)
       (expressions study_slices).
Proof.
  split.
  - eapply Forall_impl; [|intros terms; apply same_lists_eq].
    apply forallb_Forall with
      (f := fun terms =>
              same_lists (engine_tolist native 3 (arange4 4 4 4 4) terms)
                (dense_getitem (Node (arange4 4 4 4 4)) terms)).
    vm_compute. reflexivity.
  - eapply Forall_impl; [|intros terms; apply same_lists_eq].
    apply forallb_Forall with
      (f := fun terms =>
              same_lists (engine_tolist native 2 (arange3 4 4 4) terms)
                (dense_getitem (Node (arange3 4 4 4)) terms)).
    vm_compute. reflexivity.
Qed.

(** C1. The engine does not agree with the dense reference on every index
    expression: on the rank-3 array of the study, [a[0, -1]] is the row
    [[12, 13, 14, 15]], and the engine returns [[60, 61, 62, 63]]. The
    integer step adds the negative term to the start of the row and reads
    the content from its end, where the integer-array step offsets the
    term by the row length. *)
Theorem getitem_enter_negative_integer
    (native : list Z -> list term -> result Array) :
  engine_tolist native 2 (arange3 4 4 4) [TInt 0; TInt (-1)]
  = Ok (Node [Leaf 60; Leaf 61; Leaf 62; Leaf 63])
  /\ dense_getitem (Node (arange3 4 4 4)) [TInt 0; TInt (-1)]
     = Ok (Node [Leaf 12; Leaf 13; Leaf 14; Leaf 15])
  /\ engine_tolist native 2 (arange3 4 4 4) [TIntArray [0]; TIntArray [-1]]
     = Ok (Node [Node [Leaf 12; Leaf 13; Leaf 14; Leaf 15]]).
Proof. repeat split; vm_compute; reflexivity. Qed.

(** ** The tagged-union container *)

Section UnionProperties.

Context {A : Type}.
Implicit Types (u : UnionArray A) (contents : list (content A)).

(** Validation only sets the cache. *)
Lemma valid_fields u u' :
  _valid u = Ok u' ->
  _view u' = _view u /\ _tags u' = _tags u /\ _index u' = _index u
  /\ _contents u' = _contents u.
Proof.
  unfold _valid. destruct (_isvalid u); [by intros [= <-]|].
  repeat (match goal with
          | |- context [if ?b then _ else _] => destruct b
          end; try done).
  destruct (array_max (values (_tags u))); [cbn|done].
  destruct (_ <=? _); [done|].
  destruct (intarray_len (_tags u)); [cbn|done].
  destruct (array_max _); [cbn|done].
  destruct (for_each _ _ _); [cbn|done].
  by intros [= <-].
Qed.

Lemma foldl_max_bound (l : list Z) :
  forall x : Z,
    x <= foldl Z.max x l /\ (forall t : Z, t ∈ l -> t <= foldl Z.max x l).
Proof.
  induction l as [|y l IH]; intros x; cbn.
  - split; [lia|]. by intros t ?%elem_of_nil.
  - destruct (IH (Z.max x y)) as [Hx Hl]. split; [lia|].
    intros t [->|Ht]%elem_of_cons; [lia|by apply Hl].
Qed.

Lemma array_max_bound (l : list Z) (t : Z) :
  t ∈ l -> exists m : Z, array_max l = Ok m /\ t <= m.
Proof.
  destruct l as [|x l]; [by intros ?%elem_of_nil|].
  intros Ht. cbn. eexists; split; [done|].
  destruct (foldl_max_bound l x) as [Hx Hl].
  apply elem_of_cons in Ht as [->|Ht]; [done|by apply Hl].
Qed.

(** Constructing succeeds on non-negative tags and index and non-empty
    contents, and leaves the container unvalidated. *)
Lemma init_ok (tags index : intarray) contents :
  Forall (fun t => 0 <= t) (values tags) ->
  Forall (fun i => 0 <= i) (values index) ->
  contents <> [] ->
  __init__ tags index contents
  = Ok {| _view := None; _tags := tags; _index := index;
          _contents := contents; _isvalid := false |}.
Proof.
  intros Htags Hindex Hcontents. unfold __init__, check_tags, check_index, check_contents.
  assert (forall l, Forall (fun t => 0 <= t) l -> existsb (fun t => t <? 0) l = false)
    as Hneg.
  { induction 1 as [|t l Ht _ IH]; cbn; [done|].
    rewrite IH. by destruct (Z.ltb_spec t 0); [lia|]. }
  rewrite !Hneg by done. cbn [rbind].
  destruct contents as [|x contents]; [done|].
  len_simpl. pose proof (len_nonneg contents).
  by destruct (Z.eqb_spec (1 + len contents) 0); [lia|].
Qed.

(** C7. Constructing a union with a tag at or beyond the number of contents
    does not raise: the constructor returns the container, not validated.
    The violation is raised by the validation, as a validity error, and by
    every read, which validates first. *)
Theorem init_defers_validation (tags index : intarray) contents (t : Z) :
  Forall (fun t => 0 <= t) (values tags) ->
  Forall (fun i => 0 <= i) (values index) ->
  contents <> [] ->
  t ∈ values tags ->
  len contents <= t ->
  exists u : UnionArray A,
    __init__ tags index contents = Ok u
    /\ _isvalid u = false
    /\ exists e : error,
         _valid u = Err e
         /\ pyclass e = ValueError
         /\ condition_of e = Some ValidityError
         /\ (shape tags = shape index -> e = ValidMaxTag)
         /\ forall w : selector, __getitem__ u w = Err e.
Proof.
  intros Htags Hindex Hcontents Ht Hbig.
  eexists. split; [by apply init_ok|]. split; [done|].
  destruct (array_max_bound _ _ Ht) as (m & Hm & Htm).
  unfold __getitem__, _valid. cbn [_isvalid _tags _index _contents].
  destruct (len (shape index) <? len (shape tags)) eqn:Hrank.
  { exists ValidRank. repeat split; try done.
    intros Hshape. rewrite Hshape in Hrank. by apply Z.ltb_lt in Hrank; lia. }
  destruct (bool_decide (drop 1 (shape tags) = drop 1 (shape index))) eqn:Hdim;
    cbn [negb].
  2:{ exists ValidDimensionality. repeat split; try done.
      intros Hshape. rewrite Hshape in Hdim.
      by rewrite bool_decide_eq_false in Hdim. }
  rewrite Hm. cbn [rbind].
  destruct (Z.leb_spec (len contents) m); [|lia].
  by exists ValidMaxTag.
Qed.

(** A read at a position inside the range resolves the tag, then the
    offset in the content the tag selects. *)
Lemma union_getitem_inside u u' (L i : Z) :
  _view u = None ->
  _valid u = Ok u' ->
  shape (_tags u) = [L] ->
  0 <= i < L ->
  __getitem__ u (SInt i)
  = (let* tag := getitem (values (_tags u)) i in
     let* x := getitem (_contents u) tag in
     let* k := getitem (values (_index u)) i in
     let* e := getitem (items x) k in
     Ok (e, u')).
Proof.
  intros Hview Hvalid Hshape Hi.
  destruct (valid_fields _ _ Hvalid) as (Hv & Ht & Hx & Hc).
  unfold __getitem__. rewrite Hvalid. cbn [rbind].
  rewrite Hv, Hview, Ht, Hx, Hc. unfold intarray_len. rewrite Hshape.
  cbn [rbind]. zcases; try lia. cbn [andb negb rbind].
  by replace (0 + 1 * i) with i by lia.
Qed.

(** Lines 239 to 242 on a union without a view that passes validation,
    with one-dimensional tags of length [L]: a position in [[-L, L)] reads
    [contents[tags[k]][index[k]]] at [k], the position itself or, when
    negative, the position plus [L]; a position outside raises the
    [IndexError] of line 242. *)
Lemma union_getitem_wraps u u' (L i : Z) :
  _view u = None ->
  _valid u = Ok u' ->
  shape (_tags u) = [L] ->
  (- L <= i < L ->
   __getitem__ u (SInt i)
   = (let* e := element_at u (if i <? 0 then i + L else i) in Ok (e, u')))
  /\ (i < - L \/ L <= i ->
      __getitem__ u (SInt i) = Err ReadOutOfBounds
      /\ pyclass ReadOutOfBounds = IndexError).
Proof.
  intros Hview Hvalid Hshape.
  destruct (valid_fields _ _ Hvalid) as (Hv & Ht & Hx & Hc).
  split.
  - intros Hi.
    assert (__getitem__ u (SInt i)
            = __getitem__ u (SInt (if i <? 0 then i + L else i))) as ->.
    { unfold __getitem__. rewrite Hvalid. cbn [rbind]. cbv zeta.
      rewrite Hv, Hview, Ht. unfold intarray_len. rewrite Hshape. cbn [rbind].
      destruct (Z.ltb_spec i 0); cbv iota.
      - by destruct (Z.ltb_spec (i + L) 0); [lia|].
      - by destruct (Z.ltb_spec i 0); [lia|]. }
    rewrite (union_getitem_inside u u' L) by (try done; destruct (Z.ltb_spec i 0); lia).
    unfold element_at.
    destruct (getitem (values (_tags u)) _); [cbn|done].
    destruct (getitem (_contents u) _); [cbn|done].
    destruct (getitem (values (_index u)) _); [cbn|done].
    by destruct (getitem (items _) _).
  - intros Hi. split; [|done].
    unfold __getitem__. rewrite Hvalid. cbn [rbind]. cbv zeta.
    rewrite Hv, Hview, Ht. unfold intarray_len. rewrite Hshape. cbn [rbind].
    zcases; try lia; done.
Qed.

Lemma all_of_outside (types : list npdtype) contents (x : content A) :
  x ∈ contents -> dtype_of x ∉ types -> all_of types contents = false.
Proof.
  intros Hx Hout. unfold all_of.
  induction Hx as [x contents|x y contents _ IH]; cbn.
  - by rewrite bool_decide_eq_false_2.
  - rewrite IH by done. by destruct (bool_decide _).
Qed.

(** A content of the generic element type makes the element type of the
    union generic. *)
Lemma dtype_generic_content contents (x : content A) :
  x ∈ contents -> dtype_of x = object_ -> dtype contents = object_.
Proof.
  intros Hx Hobj. unfold dtype.
  rewrite !(all_of_outside _ contents x Hx); try done;
    rewrite Hobj; unfold integer_types, floating_types, complexfloating_types;
    cbn [app]; intros Hin;
    repeat (apply elem_of_cons in Hin as [?|Hin]; [done|]);
    by apply elem_of_nil in Hin.
Qed.

(** C8, as the source has it. When some content has the generic element
    type, or more generally the element type the contents promote to is
    generic, or the contents do not all have the same item shape, the shape
    of the union is exactly the shape of [tags]. *)
Theorem union_shape_tags_only u (x0 : content A) (rest : list (content A)) :
  _contents u = x0 :: rest ->
  dtype (x0 :: rest) = object_
  \/ (exists x : content A, x ∈ x0 :: rest /\ dtype_of x = object_)
  \/ (exists x : content A, x ∈ rest /\ item_shape x <> item_shape x0) ->
  union_shape u = Ok (shape (_tags u)).
Proof.
  intros Hc Hcases. unfold union_shape. rewrite Hc. cbn [getitem].
  change (getitem (x0 :: rest) 0) with (Ok x0). cbn [rbind drop]. cbv zeta.
  rewrite drop_0.
  destruct Hcases as [Hobj|[(x & Hx & Hobj)|(x & Hx & Hshape)]].
  - by rewrite bool_decide_eq_true_2.
  - by rewrite bool_decide_eq_true_2 by by apply (dtype_generic_content _ x).
  - assert (forallb (fun x => bool_decide (content_shape x = content_shape x0))
              rest = false) as ->.
    { clear Hc. induction Hx as [x rest|x y rest _ IH]; cbn.
      - rewrite bool_decide_eq_false_2; [done|].
        unfold content_shape. congruence.
      - rewrite IH by done. by destruct (bool_decide _). }
    by rewrite orb_true_r.
Qed.

(** What the validation of one-dimensional [tags] and [index] checks once
    the tags are in range: the largest index below [len(tags)] against the
    number of contents. *)
Lemma valid_one_dimensional (v : option view) (tags index : list Z) contents
    (maxtag maxindex : Z) :
  (length tags <= length index)%nat ->
  contents <> [] ->
  array_max tags = Ok maxtag ->
  maxtag < len contents ->
  array_max (take (length tags) index) = Ok maxindex ->
  _valid {| _view := v; _tags := array1d tags; _index := array1d index;
           _contents := contents; _isvalid := false |}
  = if len contents <=? maxindex then Err ValidMaxIndex
    else Ok {| _view := v; _tags := array1d tags; _index := array1d index;
               _contents := contents; _isvalid := true |}.
Proof.
  intros Hlen Hcontents Hmaxtag Hin Hmaxindex. unfold _valid.
  cbn [_isvalid _tags _index _contents _view array1d shape values drop].
  len_simpl. rewrite bool_decide_eq_true_2 by done.
  cbn [negb]. rewrite Hmaxtag. cbn [rbind].
  destruct (Z.leb_spec (len contents) maxtag); [lia|].
  change (1 + 0 <? 1 + 0) with false.
  unfold intarray_len.
  cbn [array1d shape rbind head default from_option id foldr].
  assert (slice_bound (len index) (len tags) * 1 = len tags) as ->.
  { unfold slice_bound. pose proof (len_nonneg tags). unfold len in *.
    zcases; lia. }
  unfold len at 1. rewrite Nat2Z.id, Hmaxindex. cbn [rbind].
  destruct contents as [|x contents]; [done|].
  cbn [for_each]. destruct (len (x :: contents) <=? maxindex); [done|].
  cbn [rbind].
  assert (for_each contents (fun (_ : content A) (_ : ()) => Ok ()) () = Ok ()) as ->.
  { clear. by induction contents. }
  done.
Qed.

End UnionProperties.

(** *** The index derived by [fromtags] *)

Lemma masked_assign_length (index : list Z) (mask : list bool) (vals : list Z) :
  length (masked_assign index mask vals) = length index.
Proof.
  revert mask vals. induction index as [|x index IH]; intros [|m mask] vals;
    try done.
  cbn. destruct m; [destruct vals as [|v vals]; [done|]|]; cbn; by rewrite IH.
Qed.

(** One pass of the loop: the positions carrying the tag are numbered from
    [k] in order of appearance, the others are left alone. *)
Lemma masked_assign_tag (tag : Z) (tags : list Z) :
  forall (index : list Z) (k i : nat) (t : Z),
    length index = length tags ->
    tags !! i = Some t ->
    masked_assign index (map (fun t' => t' =? tag) tags)
      (map Z.of_nat
         (seq k (length (filter (fun b => b = true)
                           (map (fun t' => t' =? tag) tags))))) !! i
    = if t =? tag
      then Some (Z.of_nat
                   (k + length (filter (fun b => b = true)
                                  (map (fun t' => t' =? tag) (take i tags)))))
      else index !! i.
Proof.
  induction tags as [|t0 tags IH]; intros index k i t Hlen Ht; [done|].
  destruct index as [|x index]; [done|]. cbn [map masked_assign].
  destruct (Z.eqb_spec t0 tag) as [->|Hne].
  - rewrite filter_cons_True by done. cbn [length seq map].
    destruct i as [|i].
    + injection Ht as <-. rewrite Z.eqb_refl. cbn. by rewrite Nat.add_0_r.
    + rewrite !lookup_cons. cbn [take map]. cbn in Ht.
      rewrite (IH index (S k) i t) by (by inversion Hlen || done).
      destruct (t =? tag); [|done].
      rewrite Z.eqb_refl, filter_cons_True by done. cbn [length].
      do 2 f_equal. lia.
  - rewrite filter_cons_False by done.
    destruct i as [|i].
    + injection Ht as <-. by destruct (Z.eqb_spec t0 tag).
    + rewrite !lookup_cons. cbn [take map]. cbn in Ht.
      rewrite (IH index k i t) by (by inversion Hlen || done).
      destruct (t =? tag); [|done].
      destruct (Z.eqb_spec t0 tag); [done|].
      by rewrite filter_cons_False by done.
Qed.

Lemma count_nonzero_nat (mask : list bool) :
  Z.to_nat (count_nonzero mask) = length (filter (fun b => b = true) mask).
Proof. unfold count_nonzero, len. by rewrite Nat2Z.id. Qed.

(** After the passes for the tags below [m], the positions whose tag is
    below [m] hold their offset. *)
Lemma fromtags_index_passes (tags index0 : list Z) (m : nat) :
  length index0 = length tags ->
  length (fromtags_index tags m index0) = length tags
  /\ forall (i : nat) (t : Z),
       tags !! i = Some t ->
       fromtags_index tags m index0 !! i
       = if (0 <=? t) && (t <? Z.of_nat m)
         then Some (count_nonzero (map (fun t' => t' =? t) (take i tags)))
         else index0 !! i.
Proof.
  intros Hlen. unfold fromtags_index, range. rewrite Nat2Z.id.
  induction m as [|m [IHlen IH]].
  - split; [done|]. intros i t Ht. cbn [seq map foldl].
    change (Z.of_nat 0) with 0.
    by destruct (Z.leb_spec 0 t), (Z.ltb_spec t 0); try lia.
  - rewrite seq_S, map_app, foldl_app. cbn [map foldl Nat.add].
    split; [by rewrite masked_assign_length|].
    intros i t Ht.
    set (prev := foldl _ index0 _) in *.
    rewrite count_nonzero_nat, (masked_assign_tag _ _ _ 0 i t IHlen Ht), (IH i t Ht).
    cbn [Nat.add]. unfold count_nonzero, len.
    destruct (Z.eqb_spec t (Z.of_nat m)) as [->|Hne].
    + by destruct (Z.leb_spec 0 (Z.of_nat m)), (Z.ltb_spec (Z.of_nat m) (Z.of_nat (S m)));
        try lia.
    + destruct (Z.leb_spec 0 t); cbn [andb]; [|done].
      by destruct (Z.ltb_spec t (Z.of_nat m)), (Z.ltb_spec t (Z.of_nat (S m)));
        try lia.
Qed.

(** [fromtags] derives the index of the design: for tags within the
    number of contents, whatever the buffer held before. *)
Lemma fromtags_index_offsets (tags index0 : list Z) (ncontents : nat) :
  length index0 = length tags ->
  Forall (fun t => 0 <= t < Z.of_nat ncontents) tags ->
  fromtags_index tags ncontents index0 = per_tag_offsets tags.
Proof.
  intros Hlen Htags.
  destruct (fromtags_index_passes tags index0 ncontents Hlen) as [Hl Hi].
  apply list_eq. intros i. unfold per_tag_offsets. rewrite list_lookup_imap.
  destruct (tags !! i) as [t|] eqn:Ht; cbn.
  - rewrite (Hi i t Ht).
    pose proof (proj1 (Forall_lookup _ _) Htags i t Ht) as Hrange. cbn in Hrange.
    by destruct (Z.leb_spec 0 t), (Z.ltb_spec t (Z.of_nat ncontents)); try lia.
  - apply lookup_ge_None. apply lookup_ge_None in Ht. lia.
Qed.

(** [fromtags] on one-dimensional tags within the number of contents
    returns the union whose index is the one of the design. *)
Lemma fromtags_offsets {A} (np_empty : nat -> list Z) (tags : list Z)
    (contents : list (content A)) (maxtag : Z) :
  (forall n : nat, length (np_empty n) = n) ->
  Forall (fun t => 0 <= t) tags ->
  contents <> [] ->
  array_max tags = Ok maxtag ->
  maxtag < len contents ->
  fromtags np_empty (array1d tags) contents
  = Ok {| _view := None; _tags := array1d tags;
          _index := array1d (per_tag_offsets tags);
          _contents := contents; _isvalid := false |}.
Proof.
  intros Hempty Hnonneg Hcontents Hmax Hin.
  unfold fromtags, check_tags, check_contents. cbn [array1d values shape].
  assert (existsb (fun t => t <? 0) tags = false) as ->.
  { clear -Hnonneg. induction Hnonneg as [|t l Ht _ IH]; cbn; [done|].
    rewrite IH. by destruct (Z.ltb_spec t 0); [lia|]. }
  cbn [rbind].
  destruct (Z.eqb_spec (len contents) 0) as [Hzero|_].
  { destruct contents; [done|]. revert Hzero. len_simpl.
    pose proof (len_nonneg contents). lia. }
  cbn [rbind].
  change (values (array1d tags)) with tags.
  change (shape (array1d tags)) with [len tags].
  rewrite Hmax. cbn [rbind].
  destruct (Z.leb_spec (len contents) maxtag); [lia|].
  rewrite fromtags_index_offsets; [|apply Hempty|].
  - unfold array1d, per_tag_offsets, len. by rewrite length_imap.
  - apply Forall_forall. intros t Ht.
    pose proof (proj1 (Forall_forall _ _) Hnonneg t Ht) as H0. cbn in H0.
    destruct (array_max_bound _ _ Ht) as (m & Hm & Htm).
    rewrite Hmax in Hm. injection Hm as <-. unfold len in Hin. lia.
Qed.

(** The scenario of the design: reading positions 0, 1 and 2 of
    [tags = [0,1,0]], [index = [0,0,1]], [contents = ([10,20], [99])]
    yields 10, 99 and 20. *)
Lemma union_scenario :
  map (read (union_of [0; 1; 0] [0; 0; 1] [int_content [10; 20]; int_content [99]]))
    [0; 1; 2]
  = [Ok 10; Ok 99; Ok 20].
Proof. reflexivity. Qed.

(** C2. The validation does not compare [index[i]] with the length of the
    content that [tags[i]] selects: it compares the largest index with the
    number of contents. With three contents of one item each, [tags = [0]]
    and [index = [2]] pass validation although [index[0]] is beyond
    [contents[0]], and the read then fails inside the content; with one
    content of three items, [tags = [0,0,0]] and [index = [0,1,2]] are in
    range and rejected. The tag range is checked first: out-of-range tag
    and index together report the tag. *)
Theorem valid_compares_with_content_count :
  let three := [int_content [10]; int_content [20]; int_content [30]] in
  let one := [int_content [10; 20; 30]] in
  index_in_range [0] [2] three = false
  /\ (exists u' : UnionArray Z,
        (let* u := union_of [0] [2] three in _valid u) = Ok u'
        /\ _isvalid u' = true)
  /\ read (union_of [0] [2] three) 0 = Err BufferIndex
  /\ index_in_range [0; 0; 0] [0; 1; 2] one = true
  /\ (let* u := union_of [0; 0; 0] [0; 1; 2] one in _valid u) = Err ValidMaxIndex
  /\ (let* u := union_of [3] [7] three in _valid u) = Err ValidMaxTag.
Proof.
  cbv zeta. repeat split; try reflexivity.
  eexists. split; reflexivity.
Qed.

(** C6. [fromtags] followed by a read does not always return the element
    of the direct lookup: for [tags = [0,0,0]] and the single content
    [[10,20,30]] the derived index is [[0,1,2]], the direct lookup at
    position 0 is 10, and every read raises the validation error of line
    204, the largest index (2) being compared with the number of contents
    (1). *)
Theorem fromtags_read_rejected (np_empty : nat -> list Z) :
  (forall n : nat, length (np_empty n) = n) ->
  exists u : UnionArray Z,
    fromtags np_empty (array1d [0; 0; 0]) [int_content [10; 20; 30]] = Ok u
    /\ values (_index u) = [0; 1; 2]
    /\ (let* x := getitem (_contents u) 0 in getitem (items x) 0) = Ok 10
    /\ forall i : Z, 0 <= i < 3 -> read (Ok u) i = Err ValidMaxIndex.
Proof.
  intros Hlen. eexists. split; [reflexivity|].
  pose proof (Hlen 3%nat) as H3.
  cbn [fromtags_index values _index array1d length].
  destruct (np_empty 3%nat) as [|a [|b [|c [|d l]]]]; try done.
Qed.

Lemma fromtags_read_rejected_witness :
  exists u : UnionArray Z,
    fromtags (fun n => replicate n 0) (array1d [0; 0; 0])
      [int_content [10; 20; 30]] = Ok u
    /\ values (_index u) = [0; 1; 2]
    /\ (let* x := getitem (_contents u) 0 in getitem (items x) 0) = Ok 10
    /\ forall i : Z, 0 <= i < 3 -> read (Ok u) i = Err ValidMaxIndex.
Proof.
  apply (fromtags_read_rejected (fun n => replicate n 0)).
  intros n. apply length_replicate.
Defined.

Lemma init_defers_validation_witness :
  exists u : UnionArray Z,
    union_of [0; 2] [0; 0] [int_content [10; 20]] = Ok u
    /\ _isvalid u = false
    /\ _valid u = Err ValidMaxTag
    /\ __getitem__ u (SInt 0) = Err ValidMaxTag.
Proof.
  destruct (init_defers_validation (array1d [0; 2]) (array1d [0; 0])
              [int_content [10; 20]] 2) as (u & Hu & Hv & e & He & _ & _ & Hs & Hr).
  - repeat constructor; lia.
  - repeat constructor; lia.
  - done.
  - cbn. apply elem_of_cons. right. apply elem_of_cons. by left.
  - unfold len. cbn. lia.
  - exists u. rewrite <- (Hs eq_refl). by rewrite Hr.
Defined.

(** Every content has the item shape [(3,)] and none has the generic
    element type, and yet the shape of the union is [(2,)], not [(2, 3)]:
    boolean and integer contents promote to the generic type. *)
Lemma union_shape_mixed :
  union_shape mixed_union <> Ok (designed_shape mixed_union).
Proof. vm_compute. discriminate. Qed.

Lemma union_shape_tags_only_witness :
  union_shape mixed_union = Ok [2].
Proof.
  apply (union_shape_tags_only mixed_union _ _ eq_refl).
  left. reflexivity.
Defined.

(** C9. A union that is valid for the data model is not always read: for
    [tags = [0,1,1]], [index = [0,1,2]] and the contents [[10]] and
    [[20,30,40]] every index is inside the content its tag selects, the
    element of position 2 is 40, and the reads at [-1], at [2] and at [3]
    all raise the [ValueError] of line 204, the largest index (2) being
    compared with the number of contents (2): neither does the read at
    [-1] return the element of position 2, nor does the read at [3] raise
    an [IndexError]. *)
Theorem union_getitem_negative_rejected :
  let contents := [int_content [10]; int_content [20; 30; 40]] in
  index_in_range [0; 1; 1] [0; 1; 2] contents = true
  /\ exists u : UnionArray Z,
       union_of [0; 1; 1] [0; 1; 2] contents = Ok u
       /\ element_at u 2 = Ok 40
       /\ __getitem__ u (SInt (-1)) = Err ValidMaxIndex
       /\ __getitem__ u (SInt 2) = Err ValidMaxIndex
       /\ __getitem__ u (SInt 3) = Err ValidMaxIndex
       /\ pyclass ValidMaxIndex = ValueError
       /\ pyclass ValidMaxIndex <> IndexError.
Proof.
  cbv zeta. split; [reflexivity|]. eexists. split; [reflexivity|].
  repeat split; done.
Qed.

(** * Further properties *)

(** ** Gathering and slicing flat buffers *)

Lemma gather_app {A} (l : list A) (js ks : list Z) :
  gather l (js ++ ks)
  = let* xs := gather l js in let* ys := gather l ks in Ok (xs ++ ys).
Proof.
  induction js as [|j js IH]; cbn.
  - by destruct (gather l ks).
  - destruct (getitem l j); [cbn|done]. rewrite IH.
    destruct (gather l js); [cbn|done]. by destruct (gather l ks).
Qed.

Lemma gather_length {A} (l : list A) (js : list Z) (xs : list A) :
  gather l js = Ok xs -> length xs = length js.
Proof.
  revert xs. induction js as [|j js IH]; intros xs; cbn.
  - by intros [= <-].
  - destruct (getitem l j); [cbn|done].
    destruct (gather l js) as [ys|]; [cbn|done].
    intros [= <-]. cbn. by rewrite (IH ys).
Qed.

(** The length of [l[a:b]] for bounds inside the buffer. *)
Lemma pyslice_length {A} (l : list A) (a b : Z) :
  0 <= a <= b -> b <= len l -> len (pyslice l a b) = b - a.
Proof.
  intros Hab Hb. unfold pyslice, slice_bound, len in *.
  zcases; try lia.
  rewrite length_take, length_drop. lia.
Qed.

(** Item [j] of [l[a:b]] is item [a + j] of [l]. *)
Lemma pyslice_getitem {A} (l : list A) (a b j : Z) :
  0 <= a <= b -> b <= len l -> 0 <= j < b - a ->
  getitem (pyslice l a b) j = getitem l (a + j).
Proof.
  intros Hab Hb Hj. rewrite !getitem_nonneg by lia.
  unfold pyslice, slice_bound, len in *. zcases; try lia.
  rewrite lookup_take_lt by lia. rewrite lookup_drop.
  by replace (_ + Z.to_nat j)%nat with (Z.to_nat (a + j)) by lia.
Qed.

(** Gathering from a slice is gathering from the buffer at the shifted
    positions. *)
Lemma gather_pyslice {A} (l : list A) (a b : Z) (js : list Z) :
  0 <= a <= b -> b <= len l ->
  Forall (fun j => 0 <= j < b - a) js ->
  gather (pyslice l a b) js = gather l (map (Z.add a) js).
Proof.
  intros Hab Hb Hjs. induction Hjs as [|j js Hj _ IH]; [done|].
  cbn. by rewrite pyslice_getitem, IH.
Qed.

(** Rows laid out one after the other are read back by their boundaries. *)
Lemma compact_rows {A} (rows : list (list A)) :
  forall pre suf : list A,
    zip_with (fun s t => pyslice (pre ++ concat rows ++ suf) s t)
      (row_starts_from (len pre) rows) (row_stops_from (len pre) rows)
    = rows.
Proof.
  induction rows as [|r rows IH]; intros pre suf; [done|].
  cbn [row_starts_from row_stops_from zip_with concat]. f_equal.
  - unfold pyslice, slice_bound. len_simpl.
    pose proof (len_nonneg pre). pose proof (len_nonneg r).
    pose proof (len_nonneg (concat rows)). pose proof (len_nonneg suf).
    zcases; try lia.
    replace (Z.max 0 (Z.min _ (len pre))) with (len pre) by lia.
    replace (Z.max 0 (Z.min _ (len pre + len r))) with (len pre + len r) by lia.
    unfold len. rewrite Nat2Z.id, drop_app_length.
    replace (Z.to_nat _) with (length r) by lia.
    rewrite <- app_assoc. by rewrite take_app_length.
  - specialize (IH (pre ++ r) suf). revert IH. len_simpl.
    by rewrite <- !app_assoc.
Qed.

(** The positions [range(a, b, c)] visits lie between the bounds. *)
Lemma range3_bounds (a b c j : Z) :
  c <> 0 -> j ∈ range3 a b c ->
  (0 < c -> a <= j < b) /\ (c < 0 -> b < j <= a).
Proof.
  intros Hc. unfold range3. intros (n & -> & Hn)%list_elem_of_fmap.
  apply elem_of_seq in Hn. split; intros Hsign.
  - destruct (Z.ltb_spec 0 c); [|lia].
    assert (Z.of_nat n < (b - a + c - 1) / c) as Hlt by lia.
    assert (c * Z.of_nat n < b - a); [|nia].
    pose proof (Z.mul_div_le (b - a + c - 1) c ltac:(lia)). nia.
  - destruct (Z.ltb_spec 0 c); [lia|].
    assert (Z.of_nat n < (a - b + - c - 1) / - c) as Hlt by lia.
    assert (- c * Z.of_nat n < a - b); [|nia].
    pose proof (Z.mul_div_le (a - b + - c - 1) (- c) ltac:(lia)). nia.
Qed.

(** ** The context across a slice term *)

(** Filling the next [n] free positions of a scratch buffer. *)
Lemma fill_slice_next (pre suf : list Z) (n v : Z) :
  0 <= n <= len suf ->
  fill_slice (pre ++ suf) (len pre) (len pre + n) v
  = pre ++ replicate (Z.to_nat n) v ++ drop (Z.to_nat n) suf.
Proof.
  intros Hn. unfold fill_slice, slice_bound. len_simpl.
  pose proof (len_nonneg pre). zcases; try lia.
  replace (Z.max 0 (Z.min _ (len pre))) with (len pre) by lia.
  replace (Z.max 0 (Z.min _ (len pre + n))) with (len pre + n) by lia.
  replace (Z.max (len pre) (len pre + n)) with (len pre + n) by lia.
  replace (len pre + n - len pre) with n by lia.
  unfold len. rewrite Nat2Z.id, take_app_length.
  replace (Z.to_nat (Z.of_nat (length pre) + n))
    with (length pre + Z.to_nat n)%nat by lia.
  by rewrite drop_app_add.
Qed.

Lemma spread_rows_length (counts advanced : list Z) :
  length counts = length advanced ->
  Forall (fun n => 0 <= n) counts ->
  len (spread_rows counts advanced) = foldr Z.add 0 counts.
Proof.
  intros Hlen Hcounts. revert advanced Hlen.
  induction Hcounts as [|n counts Hn _ IH]; intros [|a advanced] Hlen; try done.
  unfold spread_rows in *. cbn [zip_with concat foldr]. len_simpl.
  rewrite IH by (by inversion Hlen). unfold len. rewrite length_replicate. lia.
Qed.

Section SpreadAdvanced.

Variables (counts advanced : list Z).
Hypothesis context_length : length advanced = length counts.
Hypothesis counts_nonneg : Forall (fun n => 0 <= n) counts.

(** The loop of [spread_advanced] (lines 42 to 45). *)
Lemma spread_loop (m : nat) :
  forall (i : nat) (pre suf : list Z),
    (i + m)%nat = length counts ->
    len suf = foldr Z.add 0 (drop i counts) ->
    for_each (map Z.of_nat (seq i m))
      (fun i '(nextadvanced, k) =>
         let* length := getitem counts i in
         let* adv := getitem advanced i in
         Ok (fill_slice nextadvanced k (k + length) adv, k + length))
      (pre ++ suf, len pre)
    = Ok (pre ++ spread_rows (drop i counts) (drop i advanced),
          len pre + foldr Z.add 0 (drop i counts)).
Proof using context_length counts_nonneg.
  induction m as [|m IH]; intros i pre suf Him Hsuf.
  - rewrite !drop_ge in * by lia. cbn in *.
    destruct suf; [|by rewrite len_cons in Hsuf; pose proof (len_nonneg suf); lia].
    by rewrite Z.add_0_r.
  - destruct (lookup_lt_is_Some_2 counts i) as [n Hn]; [lia|].
    destruct (lookup_lt_is_Some_2 advanced i) as [a Ha]; [lia|].
    rewrite (drop_S _ _ _ Hn) in *. rewrite (drop_S _ _ _ Ha).
    cbn [seq map for_each foldr] in *.
    rewrite (getitem_lookup _ _ _ Hn), (getitem_lookup _ _ _ Ha). cbn [rbind].
    pose proof (proj1 (Forall_lookup _ _) counts_nonneg i n Hn) as Hn0.
    cbn in Hn0.
    assert (0 <= foldr Z.add 0 (drop (S i) counts)) as Hrest.
    { clear -counts_nonneg. generalize (S i). intros j.
      assert (Forall (fun n => 0 <= n) (drop j counts)) as H by by apply Forall_drop.
      induction H; cbn; lia. }
    rewrite fill_slice_next by lia.
    replace (len pre + n) with (len (pre ++ replicate (Z.to_nat n) a))
      by (len_simpl; unfold len; rewrite length_replicate; lia).
    rewrite (app_assoc pre).
    rewrite (IH (S i)); [|lia|rewrite len_drop; unfold len in *; lia].
    unfold spread_rows. cbn [zip_with concat]. len_simpl.
    rewrite <- !app_assoc. do 2 f_equal.
    unfold len. rewrite length_replicate. lia.
Qed.

End SpreadAdvanced.

(** The context after the loop, for rows with [starts[i] <= stops[i]]. *)
Lemma spread_advanced_counts (starts stops advanced : list Z) :
  length starts = length stops -> length stops = length advanced ->
  Forall2 Z.le starts stops ->
  spread_advanced starts stops (Some advanced)
  = Ok (Some (spread_rows (zip_with Z.sub stops starts) advanced)).
Proof.
  intros Hss Hsa Hrows. unfold spread_advanced, len.
  destruct (Z.eqb_spec (Z.of_nat (length starts)) (Z.of_nat (length stops)));
    [|lia].
  destruct (Z.eqb_spec (Z.of_nat (length stops)) (Z.of_nat (length advanced)));
    [|lia].
  cbn [andb negb].
  set (counts := zip_with Z.sub stops starts).
  assert (Forall (fun n => 0 <= n) counts) as Hcounts.
  { subst counts. clear -Hrows.
    induction Hrows; cbn; constructor; [lia|done]. }
  assert (length counts = length advanced) as Hlen.
  { subst counts. rewrite length_zip_with. lia. }
  rewrite <- (spread_rows_length counts advanced Hlen Hcounts).
  unfold len at 1. rewrite full_len. cbn [rbind].
  fold (len counts). rewrite range_len.
  pose proof (spread_loop counts advanced (eq_sym Hlen) Hcounts
                (length counts) 0 []
                (replicate (length (spread_rows counts advanced)) 999)
                eq_refl) as Hloop.
  rewrite !drop_0 in Hloop. cbn [app] in Hloop.
  change (len []) with 0 in Hloop. rewrite Hloop; [done|].
  unfold len at 1. rewrite length_replicate.
  by apply spread_rows_length.
Qed.

(** [spread_advanced] leaves an unset context unset, asserts that a set
    context has one value per row, and for rows with [starts[i] <=
    stops[i]] returns the context in which every position of row [i]
    carries the value of row [i]. *)
Theorem spread_advanced_rows (starts stops advanced : list Z) :
  spread_advanced starts stops None = Ok None
  /\ (length starts <> length stops \/ length stops <> length advanced ->
      spread_advanced starts stops (Some advanced) = Err SpreadAssertion)
  /\ (length starts = length stops -> length stops = length advanced ->
      Forall2 Z.le starts stops ->
      spread_advanced starts stops (Some advanced)
      = Ok (Some (spread_rows (zip_with Z.sub stops starts) advanced))).
Proof.
  split; [done|split].
  - intros Hne. unfold spread_advanced, len.
    by destruct (Z.eqb_spec (Z.of_nat (length starts)) (Z.of_nat (length stops))),
         (Z.eqb_spec (Z.of_nat (length stops)) (Z.of_nat (length advanced)));
      try lia.
  - apply spread_advanced_counts.
Qed.

Lemma spread_advanced_rows_witness :
  length [0; 2; 2] = length [2; 2; 5]
  /\ spread_advanced [0; 2; 2] [2; 2; 5] (Some [7; 8; 9])
     = Ok (Some [7; 7; 9; 9; 9]).
Proof.
  split; [reflexivity|].
  apply (proj2 (proj2 (spread_advanced_rows [0; 2; 2] [2; 2; 5] [7; 8; 9])));
    [reflexivity | reflexivity |].
  repeat constructor; lia.
Defined.

(** ** The slice term on the rows *)

Lemma gather_concat {A} (l : list A) (jss : list (list Z)) (xss : list (list A)) :
  map_result (gather l) jss = Ok xss -> gather l (concat jss) = Ok (concat xss).
Proof.
  revert xss. induction jss as [|js jss IH]; intros xss; cbn.
  - by intros [= <-].
  - destruct (gather l js) as [xs|] eqn:Hxs; [cbn|done].
    destruct (map_result (gather l) jss) as [yss|]; [cbn|done].
    intros [= <-]. rewrite gather_app, Hxs. cbn. by rewrite (IH yss).
Qed.

(** Gathering at positions inside the buffer does not raise. *)
Lemma gather_inside {A} (l : list A) (js : list Z) :
  Forall (fun j => 0 <= j < len l) js -> exists xs : list A, gather l js = Ok xs.
Proof.
  induction 1 as [|j js Hj _ [xs IH]]; [by exists []|].
  cbn. rewrite getitem_nonneg by lia.
  destruct (lookup_lt_is_Some_2 l (Z.to_nat j)) as [x ->]; [unfold len in Hj; lia|].
  cbn. rewrite IH. cbn. by eexists.
Qed.

(** The positions the dense-array rule selects in a row lie in the row. *)
Lemma dense_slice_positions (length : Z) (start stop step : option Z) (a b c : Z) :
  0 <= length -> step <> Some 0 ->
  dense_slice_bounds length start stop step = (a, b, c) ->
  Forall (fun j => 0 <= j < length) (range3 a b c).
Proof.
  intros Hlen Hstep Hd.
  destruct (dense_slice_bounds_clamped length _ _ _ _ _ _ Hlen Hd) as [Hasc Hdesc].
  assert (c <> 0) as Hc.
  { unfold dense_slice_bounds in Hd. injection Hd as _ _ <-.
    destruct step as [c0|]; cbn; [congruence|lia]. }
  apply Forall_forall. intros j Hj.
  destruct (range3_bounds a b c j Hc Hj) as [Hup Hdown].
  destruct (Z.lt_ge_cases 0 c).
  - specialize (Hasc ltac:(lia)). specialize (Hup ltac:(lia)). lia.
  - specialize (Hdesc ltac:(lia)). specialize (Hdown ltac:(lia)). lia.
Qed.

(** One row: slicing the row as a dense array is gathering the content at
    the positions the slice step computes. *)
Lemma dense_slice_row (data : list Z) (s t : Z) (start stop step : option Z) :
  0 <= s <= t -> t <= len data -> step <> Some 0 ->
  exists row : list Z,
    dense_slice (pyslice data s t) start stop step = Ok row
    /\ gather data
         (let '(a, b, c) := dense_slice_bounds (t - s) start stop step in
          map (Z.add s) (range3 a b c)) = Ok row.
Proof.
  intros Hst Ht Hstep. unfold dense_slice.
  rewrite pyslice_length by lia.
  destruct (dense_slice_bounds (t - s) start stop step) as [[a b] c] eqn:Hd.
  pose proof (dense_slice_positions (t - s) _ _ _ _ _ _ ltac:(lia) Hstep Hd) as Hin.
  rewrite <- (gather_pyslice data s t) by (done || lia).
  destruct (gather_inside (pyslice data s t) (range3 a b c)) as [row Hrow].
  { by rewrite pyslice_length by lia. }
  exists row. by destruct step as [[| |]|].
Qed.

Section SliceRows.

Variables (starts stops data : list Z) (start stop step : option Z).
Hypothesis same_length : length starts = length stops.
Hypothesis step_nonzero : step <> Some 0.
Hypothesis rows_inside :
  forall (i : nat) (s t : Z),
    starts !! i = Some s -> stops !! i = Some t -> 0 <= s <= t /\ t <= len data.

(** All rows: the content gathered at the positions of the slice step is
    the rows, each sliced as a dense array. *)
Lemma slice_rows_gather :
  exists rows' : list (list Z),
    map_result (fun row => dense_slice row start stop step)
      (rows_of starts stops data) = Ok rows'
    /\ gather data (concat (slice_rows starts stops start stop step))
       = Ok (concat rows')
    /\ map len rows' = map len (slice_rows starts stops start stop step).
Proof using step_nonzero rows_inside.
  clear same_length. revert stops rows_inside.
  induction starts as [|s starts' IH]; intros stops' Hrows.
  - exists []. by destruct stops'.
  - destruct stops' as [|t stops']; [by exists []|].
    destruct (Hrows 0%nat s t eq_refl eq_refl) as [Hst Ht].
    destruct (dense_slice_row data s t start stop step Hst Ht step_nonzero)
      as (row & Hrow & Hgather).
    destruct (IH stops' (fun i => Hrows (S i))) as (rows' & Hrows' & Hg & Hl).
    exists (row :: rows'). unfold rows_of, slice_rows in *.
    cbn [zip_with map_result map concat].
    rewrite Hrow, Hrows'. cbn [rbind]. split; [done|].
    rewrite gather_app, Hgather, Hg. cbn [rbind]. split; [done|].
    f_equal; [|done]. apply gather_length in Hgather. unfold len. by rewrite Hgather.
Qed.

End SliceRows.

Lemma row_boundaries_lengths {A B} (r1 : list (list A)) (r2 : list (list B)) :
  map len r1 = map len r2 ->
  forall k : Z,
    row_starts_from k r1 = row_starts_from k r2
    /\ row_stops_from k r1 = row_stops_from k r2.
Proof.
  revert r2. induction r1 as [|x r1 IH]; intros [|y r2] Hl k; try done.
  cbn in Hl. injection Hl as Hxy Hl. cbn. rewrite Hxy.
  by destruct (IH r2 Hl (k + len y)) as [-> ->].
Qed.



(** The slice step as a whole, for rows with [starts[i] <= stops[i]]: the
    scratch buffer of [len(content)] positions decides between the error
    of an assignment past its end and the rows of the design. *)
Lemma slice_step (native : list Z -> list term -> result Array)
    (starts stops : list Z) (content : Array) (start stop step : option Z)
    (tail : list term) (advanced : option (list Z)) (n : Z) :
  length starts = length stops ->
  (forall (i : nat) (s t : Z),
      starts !! i = Some s -> stops !! i = Some t -> s <= t) ->
  step <> Some 0 ->
  array_len content = Ok n ->
  getitem_next native (TSlice start stop step :: tail)
    (JaggedArray starts stops content) advanced
  = (let rows := slice_rows starts stops start stop step in
     if len (concat rows) <=? n
     then
       let* c := array_take content (concat rows) in
       let* adv :=
         spread_advanced (row_starts_from 0 rows) (row_stops_from 0 rows)
           advanced in
       let* nxt := getitem_next native tail c adv in
       Ok (JaggedArray (row_starts_from 0 rows) (row_stops_from 0 rows) nxt)
     else Err BufferIndex).
Proof.
  intros Hlen Hrows Hstep Hn. cbn [getitem_next]. unfold getitem_slice3.
  assert (match step with Some 0 => true | _ => false end = false) as ->.
  { by destruct step as [[| |]|]. }
  rewrite Hn. cbn [rbind]. rewrite (array_len_nonneg _ _ Hn) at 1.
  rewrite slice3_index_rows by done. cbv zeta.
  rewrite <- (array_len_nonneg _ _ Hn).
  destruct (len (concat (slice_rows starts stops start stop step)) <=? n);
    [|done].
  cbn [rbind]. by rewrite pyslice_prefix.
Qed.

(** A slice term against a ragged container over a flat buffer slices
    every row as a dense array slices: the result is the ragged container
    that holds the sliced rows one after the other. Here the rows lie
    inside the buffer and have no more items than it. *)
Theorem getitem_slice3_slices_rows
    (native : list Z -> list term -> result Array)
    (starts stops data : list Z) (start stop step : option Z) :
  length starts = length stops ->
  step <> Some 0 ->
  (forall (i : nat) (s t : Z),
      starts !! i = Some s -> stops !! i = Some t -> 0 <= s <= t /\ t <= len data) ->
  total_count starts stops <= len data ->
  exists rows' : list (list Z),
    map_result (fun row => dense_slice row start stop step)
      (rows_of starts stops data) = Ok rows'
    /\ getitem_next native [TSlice start stop step]
         (JaggedArray starts stops (ndarray data)) None
       = Ok (JaggedArray (row_starts_from 0 rows') (row_stops_from 0 rows')
               (ndarray (concat rows')))
    /\ rows_of (row_starts_from 0 rows') (row_stops_from 0 rows') (concat rows')
       = rows'.
Proof.
  intros Hlen Hstep Hrows Htotal.
  destruct (slice_rows_gather starts stops data start stop step Hstep Hrows)
    as (rows' & Hslices & Hgather & Hlens).
  exists rows'. split; [done|]. split.
  - assert (forall (i : nat) (s t : Z),
               starts !! i = Some s -> stops !! i = Some t -> s <= t) as Hord.
    { intros i s t Hs Ht. destruct (Hrows i s t Hs Ht). lia. }
    rewrite (slice_step native starts stops (ndarray data) start stop step []
               None (len data) Hlen Hord Hstep eq_refl).
    cbv zeta.
    pose proof (slice_rows_total starts stops start stop step Hstep Hord).
    destruct (Z.leb_spec (len (concat (slice_rows starts stops start stop step)))
                (len data)); [|lia].
    cbn [array_take]. rewrite Hgather. cbn [rbind spread_advanced getitem_next].
    by destruct (row_boundaries_lengths _ _ Hlens 0) as [-> ->].
  - pose proof (compact_rows rows' [] []) as Hc.
    cbn [app] in Hc. by rewrite app_nil_r in Hc.
Qed.

Lemma getitem_slice3_slices_rows_witness :
  exists rows' : list (list Z),
    map_result (fun row => dense_slice row None None (Some (-1)))
      (rows_of [0; 2; 2] [2; 2; 5] [10; 20; 30; 40; 50]) = Ok rows'
    /\ getitem_next flat_rejects [TSlice None None (Some (-1))] scenario_rows None
       = Ok (JaggedArray (row_starts_from 0 rows') (row_stops_from 0 rows')
               (ndarray (concat rows')))
    /\ rows_of (row_starts_from 0 rows') (row_stops_from 0 rows') (concat rows')
       = rows'.
Proof.
  apply (getitem_slice3_slices_rows flat_rejects [0; 2; 2] [2; 2; 5]
           [10; 20; 30; 40; 50] None None (Some (-1)) eq_refl).
  - done.
  - intros [|[|[|i]]] s t Hs Ht; cbn in *; simplify_eq; unfold len; cbn; lia.
  - unfold len. cbn. lia.
Defined.

(** The scratch buffer of the slice step has [len(content)] positions:
    when the rows produce more, which takes rows that overlap, the step
    raises numpy's [IndexError] whatever the bounds of the slice. *)
Theorem getitem_slice3_overflow
    (native : list Z -> list term -> result Array)
    (starts stops : list Z) (content : Array) (start stop step : option Z)
    (tail : list term) (advanced : option (list Z)) (n : Z) :
  length starts = length stops ->
  (forall (i : nat) (s t : Z),
      starts !! i = Some s -> stops !! i = Some t -> s <= t) ->
  step <> Some 0 ->
  array_len content = Ok n ->
  n < len (concat (slice_rows starts stops start stop step)) ->
  getitem_next native (TSlice start stop step :: tail)
    (JaggedArray starts stops content) advanced = Err BufferIndex
  /\ pyclass BufferIndex = IndexError.
Proof.
  intros Hlen Hrows Hstep Hn Hover. split; [|done].
  rewrite (slice_step native starts stops content start stop step tail advanced
             n Hlen Hrows Hstep Hn).
  cbv zeta.
  by destruct (Z.leb_spec (len (concat (slice_rows starts stops start stop step)))
                 n); [lia|].
Qed.

Lemma getitem_slice3_overflow_witness :
  getitem_next flat_rejects [TSlice None None None]
    (JaggedArray [0; 0] [3; 3] (ndarray [10; 20; 30])) None = Err BufferIndex.
Proof.
  apply (fun H1 H2 H3 H4 =>
           proj1 (getitem_slice3_overflow flat_rejects [0; 0] [3; 3]
                    (ndarray [10; 20; 30]) None None None [] None 3 eq_refl
                    H1 H2 H3 H4)).
  - intros [|[|i]] s t Hs Ht; cbn in *; simplify_eq; lia.
  - done.
  - reflexivity.
  - by vm_compute.
Defined.



(** ** The integer term on the rows *)

(** An integer term that every row contains selects item [h] of every
    row of a ragged container over a flat buffer. *)
Theorem getitem_integer_selects
    (native : list Z -> list term -> result Array)
    (starts stops data : list Z) (h : Z) (advanced : option (list Z)) :
  length starts = length stops ->
  0 <= h ->
  (forall (i : nat) (s t : Z),
      starts !! i = Some s -> stops !! i = Some t ->
      0 <= s /\ s + h < t /\ t <= len data) ->
  exists items : list Z,
    map_result (fun row => getitem row h) (rows_of starts stops data) = Ok items
    /\ getitem_next native [TInt h] (JaggedArray starts stops (ndarray data))
         advanced = Ok (ndarray items).
Proof.
  intros Hlen Hh Hrows.
  cbn [getitem_next]. unfold getitem_integer.
  rewrite integer_index_positions by done.
  rewrite integer_positions_within;
    [|done|intros i s t Hs Ht; destruct (Hrows i s t Hs Ht); lia].
  cbn [rbind array_take].
  assert (exists items : list Z,
             map_result (fun row => getitem row h) (rows_of starts stops data)
             = Ok items
             /\ gather data (map (fun s => s + h) starts) = Ok items)
    as (items & Hitems & ->); [|by exists items].
  revert stops Hlen Hrows.
  induction starts as [|s starts' IH]; intros stops' Hlen Hrows.
  - exists []. by destruct stops'.
  - destruct stops' as [|t stops']; [done|].
    destruct (Hrows 0%nat s t eq_refl eq_refl) as (Hs & Hsh & Ht).
    destruct (IH stops' ltac:(by inversion Hlen) (fun i => Hrows (S i)))
      as (items & Hitems & Hg).
    unfold rows_of in *. cbn [zip_with map_result map gather].
    rewrite pyslice_getitem by lia.
    destruct (getitem data (s + h)) as [x|] eqn:Hx.
    + exists (x :: items). cbn [rbind]. by rewrite Hitems, Hg.
    + exfalso. rewrite getitem_nonneg in Hx by lia.
      destruct (lookup_lt_is_Some_2 data (Z.to_nat (s + h))) as [x Hl];
        [unfold len in Ht; lia|]. by rewrite Hl in Hx.
Qed.

Lemma getitem_integer_selects_witness :
  exists items : list Z,
    map_result (fun row => getitem row 1)
      (rows_of [0; 2] [2; 5] [10; 20; 30; 40; 50]) = Ok items
    /\ getitem_next flat_rejects [TInt 1]
         (JaggedArray [0; 2] [2; 5] (ndarray [10; 20; 30; 40; 50])) None
       = Ok (ndarray items).
Proof.
  apply (getitem_integer_selects flat_rejects [0; 2] [2; 5]
           [10; 20; 30; 40; 50] 1 None eq_refl); [lia|].
  intros [|[|i]] s t Hs Ht; cbn in *; simplify_eq; unfold len; cbn; lia.
Defined.

(** ** The integer-array term on the rows *)

(** An entry against a row: the normalization of the engine reads what
    numpy reads from the row, and fails where numpy fails. *)
Lemma normalized_row_item (data : list Z) (s t x : Z) :
  0 <= s <= t -> t <= len data ->
  match normalized (t - s) x with
  | Ok v => 0 <= v < t - s /\ getitem (pyslice data s t) x = getitem data (s + v)
  | Err e => e = AdvancedOutOfBounds /\ getitem (pyslice data s t) x = Err BufferIndex
  end.
Proof.
  intros Hst Ht. unfold normalized.
  pose proof (pyslice_length data s t Hst Ht) as Hl.
  destruct (Z.ltb_spec x 0) as [Hneg|Hpos].
  - destruct (Z.ltb_spec (x + (t - s)) 0) as [Hout|Hin]; cbn [orb].
    + split; [done|]. unfold getitem. rewrite Hl. by zcases; try lia.
    + destruct (Z.leb_spec (t - s) (x + (t - s))); [lia|].
      split; [lia|].
      rewrite getitem_wraps by (rewrite Hl; lia).
      rewrite Hl. by apply pyslice_getitem; lia.
  - destruct (Z.ltb_spec x 0); [lia|]. cbn [orb].
    destruct (Z.leb_spec (t - s) x) as [Hout|Hin].
    + split; [done|]. rewrite getitem_nonneg by lia.
      by rewrite lookup_ge_None_2 by (unfold len in Hl; lia).
    + split; [lia|]. by apply pyslice_getitem; lia.
Qed.

Section OuterRows.

Variables (data head : list Z).

(** One row. *)
Lemma outer_row_gather (s t : Z) :
  0 <= s <= t -> t <= len data ->
  match map_result (fun x => let* v := normalized (t - s) x in Ok (s + v)) head with
  | Ok pos =>
      exists row : list Z,
        gather (pyslice data s t) head = Ok row /\ gather data pos = Ok row
  | Err e =>
      e = AdvancedOutOfBounds
      /\ exists e' : error, gather (pyslice data s t) head = Err e'
  end.
Proof.
  intros Hst Ht. induction head as [|x head' IH]; cbn [map_result gather].
  - by exists [].
  - pose proof (normalized_row_item data s t x Hst Ht) as Hx.
    destruct (normalized (t - s) x) as [v|e]; cbn [rbind].
    + destruct Hx as [Hv ->].
      destruct (map_result _ head') as [pos|e]; cbn [rbind gather].
      * destruct IH as (row & -> & ->).
        rewrite getitem_nonneg by lia.
        destruct (lookup_lt_is_Some_2 data (Z.to_nat (s + v))) as [y ->];
          [unfold len in Ht; lia|].
        cbn. by eexists.
      * destruct IH as (-> & e' & ->). split; [done|].
        destruct (getitem data (s + v)); cbn; by eexists.
    + destruct Hx as [-> ->]. split; [done|]. by eexists.
Qed.

(** All rows. *)
Lemma outer_rows_gather (starts stops : list Z) :
  (forall (i : nat) (s t : Z),
      starts !! i = Some s -> stops !! i = Some t -> 0 <= s <= t /\ t <= len data) ->
  match outer_rows starts stops head with
  | Ok pos =>
      exists rows' : list (list Z),
        map_result (fun row => gather row head) (rows_of starts stops data)
        = Ok rows'
        /\ gather data (concat pos) = Ok (concat rows')
        /\ map len pos = map len rows'
  | Err e =>
      e = AdvancedOutOfBounds
      /\ exists e' : error,
          map_result (fun row => gather row head) (rows_of starts stops data)
          = Err e'
  end.
Proof.
  revert stops. induction starts as [|s starts' IH]; intros stops Hrows.
  - destruct stops; by exists [].
  - destruct stops as [|t stops']; [by exists []|].
    destruct (Hrows 0%nat s t eq_refl eq_refl) as [Hst Ht].
    pose proof (outer_row_gather s t Hst Ht) as Hrow.
    specialize (IH stops' (fun i => Hrows (S i))).
    unfold outer_rows, rows_of in *. cbn [zip_with map_result].
    destruct (map_result (fun x => let* v := normalized (t - s) x in Ok (s + v)) head)
      as [pos|e]; cbn [rbind].
    + destruct Hrow as (row & Hrow & Hg). rewrite Hrow. cbn [rbind].
      destruct (map_result _ (zip_with pair starts' stops')) as [poss|e];
        cbn [rbind].
      * destruct IH as (rows' & -> & Hgs & Hl). exists (row :: rows').
        cbn [rbind concat map]. split; [done|].
        rewrite gather_app, Hg, Hgs. cbn [rbind]. split; [done|].
        f_equal; [|done]. apply gather_length in Hg. unfold len. by rewrite Hg.
      * destruct IH as (-> & e' & ->). split; [done|]. by eexists.
    + destruct Hrow as (-> & e' & ->). split; [done|]. by eexists.
Qed.

End OuterRows.

(** An integer-array term met without a context, against a ragged
    container over a flat buffer, gathers from every row the entries of
    the term as numpy gathers them from the row (negative entries from the
    end of the row), and fails with the error of line 134 where numpy would
    fail on a row. *)
Theorem getitem_intarray_gathers_rows
    (native : list Z -> list term -> result Array)
    (starts stops data head : list Z) :
  length starts = length stops ->
  (forall (i : nat) (s t : Z),
      starts !! i = Some s -> stops !! i = Some t -> 0 <= s <= t /\ t <= len data) ->
  match map_result (fun row => gather row head) (rows_of starts stops data) with
  | Ok rows' =>
      getitem_next native [TIntArray head]
        (JaggedArray starts stops (ndarray data)) None
      = Ok (JaggedArray (row_starts_from 0 rows') (row_stops_from 0 rows')
              (ndarray (concat rows')))
  | Err _ =>
      getitem_next native [TIntArray head]
        (JaggedArray starts stops (ndarray data)) None
      = Err AdvancedOutOfBounds
  end.
Proof.
  intros Hlen Hrows.
  cbn [getitem_next]. unfold getitem_intarray_none.
  rewrite intarray_none_index_rows by done.
  pose proof (outer_rows_gather data head starts stops Hrows) as Hg.
  destruct (outer_rows starts stops head) as [pos|e]; cbn [rbind].
  - destruct Hg as (rows' & -> & Hg & Hl).
    cbn [array_take]. rewrite Hg. cbn [rbind getitem_next].
    by destruct (row_boundaries_lengths _ _ Hl 0) as [-> ->].
  - by destruct Hg as (-> & e' & ->).
Qed.

Lemma getitem_intarray_gathers_rows_witness :
  getitem_next flat_rejects [TIntArray [-1; 0]]
    (JaggedArray [0; 2] [2; 5] (ndarray [10; 20; 30; 40; 50])) None
  = Ok (JaggedArray [0; 2] [2; 4] (ndarray [20; 10; 50; 30])).
Proof.
  refine (getitem_intarray_gathers_rows flat_rejects [0; 2] [2; 5]
            [10; 20; 30; 40; 50] [-1; 0] eq_refl _).
  intros [|[|i]] s t Hs Ht; cbn in *; simplify_eq; unfold len; cbn; lia.
Defined.

Lemma map_result_elem {A B} (f : A -> result B) (l : list A) (ys : list B) (x : A) :
  map_result f l = Ok ys -> x ∈ l -> exists y : B, f x = Ok y.
Proof.
  revert ys. induction l as [|a l IH]; intros ys Hok Hx.
  - by apply elem_of_nil in Hx.
  - cbn in Hok. destruct (f a) as [b|] eqn:Hfa; [cbn in Hok|done].
    destruct (map_result f l) as [bs|]; [|done].
    apply elem_of_cons in Hx as [->|Hx]; [by exists b|by apply (IH bs)].
Qed.

Lemma map_result_error {A B} (f : A -> result B) (l : list A) (e : error) :
  map_result f l = Err e -> exists x : A, x ∈ l /\ f x = Err e.
Proof.
  induction l as [|a l IH]; cbn; [done|].
  destruct (f a) as [b|e'] eqn:Hfa; cbn.
  - destruct (map_result f l) as [bs|e']; cbn; [done|].
    intros [= <-]. destruct (IH eq_refl) as (x & Hx & Hfx).
    exists x. split; [by right|done].
  - intros [= <-]. exists a. split; [by left|done].
Qed.

(** The only failure of the comprehension of an integer-array term is an
    entry outside a row. *)
Lemma outer_rows_error (starts stops head : list Z) (e : error) :
  outer_rows starts stops head = Err e -> e = AdvancedOutOfBounds.
Proof.
  unfold outer_rows. intros ([s t] & _ & Hrow)%map_result_error.
  apply map_result_error in Hrow as (x & _ & Hx).
  unfold normalized in Hx.
  by destruct ((_ <? 0) || (t - s <=? _)); cbn in Hx; simplify_eq.
Qed.

(** An integer-array term with an entry outside one of the rows, an empty
    row and any entry for instance, fails as a whole with the error of line
    134, an [IndexError], whatever follows it. *)
Theorem getitem_intarray_out_of_bounds
    (native : list Z -> list term -> result Array)
    (starts stops : list Z) (content : Array) (head : list Z) (tail : list term)
    (i : nat) (s t x : Z) :
  length starts = length stops ->
  starts !! i = Some s -> stops !! i = Some t -> x ∈ head ->
  x < - (t - s) \/ t - s <= x ->
  getitem_next native (TIntArray head :: tail) (JaggedArray starts stops content)
    None = Err AdvancedOutOfBounds
  /\ pyclass AdvancedOutOfBounds = IndexError.
Proof.
  intros Hlen Hs Ht Hx Hout. split; [|done].
  cbn [getitem_next]. unfold getitem_intarray_none.
  rewrite intarray_none_index_rows by done.
  destruct (outer_rows starts stops head) as [pos|e] eqn:Hrows; cbn [rbind].
  - exfalso. unfold outer_rows in Hrows.
    assert ((s, t) ∈ zip starts stops) as Hst.
    { apply list_elem_of_lookup. exists i.
      by rewrite lookup_zip_with, Hs; cbn; rewrite Ht. }
    destruct (map_result_elem _ _ _ _ Hrows Hst) as (row & Hrow).
    destruct (map_result_elem _ _ _ _ Hrow Hx) as (y & Hy).
    unfold normalized in Hy. revert Hy. by zcases; try lia.
  - by rewrite (outer_rows_error _ _ _ _ Hrows).
Qed.

Lemma getitem_intarray_out_of_bounds_witness :
  getitem_next flat_rejects [TIntArray [0]] scenario_rows None
  = Err AdvancedOutOfBounds.
Proof.
  apply (fun H1 H2 H3 H4 H5 =>
           proj1 (getitem_intarray_out_of_bounds flat_rejects [0; 2; 2] [2; 2; 5]
                    (ndarray [10; 20; 30; 40; 50]) [0] [] 1 2 2 0
                    H1 H2 H3 H4 H5)); try reflexivity.
  - by left.
  - lia.
Defined.

Lemma outer_rows_shape (starts stops head : list Z) (pos : list (list Z)) :
  length starts = length stops ->
  outer_rows starts stops head = Ok pos ->
  length pos = length starts /\ Forall (fun r => length r = length head) pos.
Proof.
  intros Hlen Hpos. unfold outer_rows in Hpos. split.
  - apply map_result_length in Hpos. rewrite Hpos, length_zip_with. lia.
  - clear Hlen. revert pos Hpos.
    induction (zip starts stops) as [|[s t] l IH]; intros pos; cbn.
    + intros [= <-]. constructor.
    + destruct (map_result _ head) as [row|] eqn:Hrow; [cbn|done].
      destruct (map_result _ l) as [rows|]; [cbn|done].
      intros [= <-]. constructor; [by apply map_result_length in Hrow|by apply IH].
Qed.

(** Rows of one length are bounded by the multiples of that length. *)
Lemma row_boundaries_regular {A} (rows : list (list A)) (n : nat) (k : Z) :
  Forall (fun r => length r = n) rows ->
  forall j : nat,
    row_starts_from (k + Z.of_nat j * Z.of_nat n) rows
    = map (fun i => k + Z.of_nat i * Z.of_nat n) (seq j (length rows))
    /\ row_stops_from (k + Z.of_nat j * Z.of_nat n) rows
       = map (fun i => k + (Z.of_nat i + 1) * Z.of_nat n) (seq j (length rows)).
Proof.
  induction 1 as [|r rows Hr _ IH]; intros j; [done|].
  cbn [row_starts_from row_stops_from length seq map].
  replace (k + Z.of_nat j * Z.of_nat n + len r)
    with (k + Z.of_nat (S j) * Z.of_nat n) by (unfold len; lia).
  destruct (IH (S j)) as [-> ->]. split; do 2 f_equal; lia.
Qed.

(** An integer-array term met without a context returns rows of as many
    items as the term has entries: row [i] of the result spans
    [i * len(term)] to [(i + 1) * len(term)]. *)
Theorem getitem_intarray_rectangular
    (native : list Z -> list term -> result Array)
    (starts stops : list Z) (content : Array) (head : list Z) (tail : list term)
    (r : Array) :
  length starts = length stops ->
  getitem_next native (TIntArray head :: tail) (JaggedArray starts stops content)
    None = Ok r ->
  exists nxt : Array,
    r = JaggedArray (map (fun i => i * len head) (range (len starts)))
          (map (fun i => (i + 1) * len head) (range (len starts))) nxt.
Proof.
  intros Hlen. cbn [getitem_next]. unfold getitem_intarray_none.
  rewrite intarray_none_index_rows by done.
  destruct (outer_rows starts stops head) as [pos|] eqn:Hpos; [cbn [rbind]|done].
  destruct (array_take content (concat pos)); [cbn [rbind]|done].
  destruct (getitem_next native tail _ _) as [nxt|]; [cbn [rbind]|done].
  intros [= <-]. exists nxt.
  destruct (outer_rows_shape _ _ _ _ Hlen Hpos) as [Hn Hall].
  destruct (row_boundaries_regular pos (length head) 0 Hall 0) as [Hs Ht].
  change (0 + Z.of_nat 0 * Z.of_nat (length head)) with 0 in Hs, Ht.
  rewrite Hs, Ht, Hn, range_len, !map_map.
  f_equal; apply map_ext; intros i; unfold len; lia.
Qed.

Lemma getitem_intarray_rectangular_witness :
  exists nxt : Array,
    JaggedArray [0; 2] [2; 4] (ndarray [20; 10; 50; 30])
    = JaggedArray (map (fun i => i * len [-1; 0]) (range (len [0; 2])))
        (map (fun i => (i + 1) * len [-1; 0]) (range (len [0; 2]))) nxt.
Proof.
  apply (getitem_intarray_rectangular flat_rejects [0; 2] [2; 5]
           (ndarray [10; 20; 30; 40; 50]) [-1; 0] [] _ eq_refl).
  reflexivity.
Defined.

(** ** The entry routine *)

Lemma nonzero_from_length (m : list bool) (k : Z) :
  length (nonzero_from k m) = length (filter (fun b => b = true) m).
Proof.
  revert k. induction m as [|b m IH]; intros k; [done|].
  cbn [nonzero_from]. destruct b.
  - rewrite filter_cons_True by done. cbn. by rewrite IH.
  - rewrite filter_cons_False by done. cbn. by rewrite IH.
Qed.

Lemma count_nonzero_positions (m : list bool) : count_nonzero m = len (nonzero m).
Proof. unfold count_nonzero, nonzero, len. by rewrite nonzero_from_length. Qed.

(** A boolean mask holding at no or at several positions is the integer
    array of these positions to [getitem_enter], wherever it stands in the
    index expression. (A mask holding at one position is not: the
    one-entry integer array is broadcast to the length of the others, the
    mask is not.) *)
Theorem getitem_enter_mask
    (native : list Z -> list term -> result Array)
    (array : Array) (slices : list term) :
  (forall m : list bool, TBoolArray m ∈ slices -> count_nonzero m <> 1) ->
  getitem_enter native array slices
  = getitem_enter native array (map unmask slices).
Proof.
  intros Hmasks.
  assert (forall acc : Z,
             foldl (fun arraylen x =>
                      match x with
                      | TBoolArray m => Z.max arraylen (count_nonzero m)
                      | TIntArray a => Z.max arraylen (len a)
                      | _ => arraylen
                      end) acc (map unmask slices)
             = foldl (fun arraylen x =>
                        match x with
                        | TBoolArray m => Z.max arraylen (count_nonzero m)
                        | TIntArray a => Z.max arraylen (len a)
                        | _ => arraylen
                        end) acc slices) as Hlen.
  { clear. induction slices as [|x slices IH]; intros acc; [done|].
    cbn [map foldl]. rewrite IH.
    destruct x; cbn [unmask]; try done. by rewrite count_nonzero_positions. }
  assert (enter_arraylen (map unmask slices) = enter_arraylen slices) as Harraylen
    by apply Hlen.
  assert (enter_newslices (enter_arraylen slices) (map unmask slices)
          = enter_newslices (enter_arraylen slices) slices) as Hnew.
  { unfold enter_newslices. rewrite map_map. apply map_ext_in.
    intros x Hx%list_elem_of_In. destruct x as [h|a b c|a|m]; cbn [unmask]; try done.
    specialize (Hmasks m Hx). rewrite count_nonzero_positions in Hmasks.
    by destruct (nonzero m) as [|v [|w l]]. }
  unfold getitem_enter. rewrite Harraylen, Hnew.
  by destruct slices.
Qed.

Lemma getitem_enter_mask_witness :
  getitem_enter flat_rejects scenario_rows
    [TSlice None None None; TBoolArray [true; false; true]]
  = getitem_enter flat_rejects scenario_rows
      [TSlice None None None; TIntArray [0; 2]].
Proof.
  apply (getitem_enter_mask flat_rejects scenario_rows
           [TSlice None None None; TBoolArray [true; false; true]]).
  intros m Hm.
  apply elem_of_cons in Hm as [Hm|Hm]; [done|].
  apply elem_of_cons in Hm as [Hm|Hm]; [|by apply elem_of_nil in Hm].
  injection Hm as ->. by vm_compute.
Defined.



(** A slice bound to the whole of a buffer selects the buffer. *)
Lemma pyslice_all {A} (l : list A) : pyslice l 0 (len l) = l.
Proof. by rewrite <- (app_nil_r l) at 1; rewrite pyslice_prefix. Qed.

(** A single slice at the top level slices the leading axis as a dense
    array does: the items of a flat buffer, the rows of a ragged container
    (whose content is shared, not copied). *)
Theorem getitem_enter_slice
    (native : list Z -> list term -> result Array) (array : Array)
    (start stop step : option Z) :
  step <> Some 0 ->
  (forall starts stops content,
      array = JaggedArray starts stops content -> length starts = length stops) ->
  getitem_enter native array [TSlice start stop step]
  = dense_slice_array array start stop step.
Proof.
  intros Hstep Hwf. unfold getitem_enter.
  change (enter_arraylen [TSlice start stop step]) with 0.
  change (enter_newslices 0 [TSlice start stop step]) with [TSlice start stop step].
  destruct (array_len array) as [n|] eqn:Hn;
    [|by destruct array; cbn in Hn; simplify_eq].
  cbn [rbind].
  assert (0 <= n) as Hn0 by (rewrite (array_len_nonneg _ _ Hn); lia).
  rewrite (slice_step native [0] [n] array start stop step [] None n eq_refl);
    [|intros [|i] s t Hs Ht; cbn in *; simplify_eq; lia|done|done].
  pose proof (slice_rows_total [0] [n] start stop step Hstep) as Htotal.
  unfold total_count in Htotal. cbn [zip_with foldr] in Htotal.
  specialize (Htotal ltac:(intros [|i] s t Hs Ht; cbn in *; simplify_eq; lia)).
  cbv zeta.
  destruct (Z.leb_spec (len (concat (slice_rows [0] [n] start stop step))) n);
    [|lia].
  unfold slice_rows. cbn [zip_with map concat].
  replace (n - 0) with n by lia. rewrite app_nil_r.
  destruct (dense_slice_bounds n start stop step) as [[a b] c] eqn:Hd.
  assert (map (Z.add 0) (range3 a b c) = range3 a b c) as ->.
  { rewrite <- (map_id (range3 a b c)) at 2. by apply map_ext. }
  cbn [row_starts_from row_stops_from spread_advanced rbind].
  assert (match step with Some 0 => false | _ => true end = true) as Hnz
    by (by destruct step as [[| |]|]).
  destruct array as [x|data|starts stops content]; [done| |].
  - cbn [array_take dense_slice_array]. unfold dense_slice.
    injection Hn as <-. rewrite Hd.
    assert ((match step with
             | Some 0 => Err SliceStepZero
             | _ => gather data (range3 a b c)
             end) = gather data (range3 a b c)) as -> by (by destruct step as [[| |]|]).
    destruct (gather data (range3 a b c)) as [row|] eqn:Hrow; [|done].
    cbn [rbind getitem_next].
    change (getitem [0] 0) with (@Ok Z 0). cbn [rbind].
    change (getitem [0 + len (range3 a b c)] (-1))
      with (@Ok Z (0 + len (range3 a b c))).
    cbn [rbind array_slice]. apply gather_length in Hrow.
    replace (0 + len (range3 a b c)) with (len row) by (unfold len; lia).
    by rewrite pyslice_all.
  - cbn [array_take dense_slice_array]. unfold dense_slice.
    pose proof (Hwf _ _ _ eq_refl) as Hlen.
    injection Hn as <-.
    replace (len stops) with (len starts) by (unfold len; lia). rewrite Hd.
    assert (forall l : list Z,
               (match step with
                | Some 0 => Err SliceStepZero
                | _ => gather l (range3 a b c)
                end) = gather l (range3 a b c)) as Hg
      by (by intros l; destruct step as [[| |]|]).
    rewrite !Hg.
    destruct (gather starts (range3 a b c)) as [starts'|] eqn:Hs; [|done].
    cbn [rbind].
    destruct (gather stops (range3 a b c)) as [stops'|] eqn:Ht; [|done].
    cbn [rbind getitem_next].
    change (getitem [0] 0) with (@Ok Z 0). cbn [rbind].
    change (getitem [0 + len (range3 a b c)] (-1))
      with (@Ok Z (0 + len (range3 a b c))).
    cbn [rbind array_slice].
    apply gather_length in Hs, Ht.
    replace (0 + len (range3 a b c)) with (len starts') at 1
      by (unfold len; lia).
    replace (0 + len (range3 a b c)) with (len stops') by (unfold len; lia).
    by rewrite !pyslice_all.
Qed.

Lemma getitem_enter_slice_witness :
  getitem_enter flat_rejects scenario_rows [TSlice None None (Some (-1))]
  = Ok (JaggedArray [2; 2; 0] [5; 2; 2] (ndarray [10; 20; 30; 40; 50])).
Proof.
  refine (getitem_enter_slice flat_rejects scenario_rows None None (Some (-1)) _ _).
  - done.
  - by intros starts stops content [= <- <- <-].
Defined.

(** ** The integer-array term with a context, on the rows *)

(** An integer-array term met with a context as long as the rows, against
    a ragged container over a flat buffer, pairs row [i] with the entry
    [term[context[i]]] and reads that entry from the row as numpy does;
    where a lookup fails, the step fails with an [IndexError]. *)
Theorem getitem_intarray_pairs_rows
    (native : list Z -> list term -> result Array)
    (starts stops data head advanced : list Z) :
  length starts = length stops ->
  length advanced = length starts ->
  (forall (i : nat) (s t : Z),
      starts !! i = Some s -> stops !! i = Some t -> 0 <= s <= t /\ t <= len data) ->
  match
    map_result (fun '(row, adv) => let* x := getitem head adv in getitem row x)
      (zip (rows_of starts stops data) advanced)
  with
  | Ok items =>
      getitem_next native [TIntArray head]
        (JaggedArray starts stops (ndarray data)) (Some advanced)
      = Ok (ndarray items)
  | Err _ =>
      exists e : error,
        getitem_next native [TIntArray head]
          (JaggedArray starts stops (ndarray data)) (Some advanced) = Err e
        /\ pyclass e = IndexError
  end.
Proof.
  intros Hlen Hadv Hrows.
  cbn [getitem_next]. unfold getitem_intarray_some.
  rewrite intarray_some_index_positions by done.
  assert (match
             map_result
               (fun '(row, adv) => let* x := getitem head adv in getitem row x)
               (zip (rows_of starts stops data) advanced)
           with
           | Ok items =>
               exists pos : list Z,
                 vectorized_positions starts stops head advanced = Ok pos
                 /\ gather data pos = Ok items
           | Err _ =>
               exists e : error,
                 (vectorized_positions starts stops head advanced = Err e
                  \/ exists pos : list Z,
                      vectorized_positions starts stops head advanced = Ok pos
                      /\ gather data pos = Err e)
                 /\ pyclass e = IndexError
           end) as Hmain.
  { clear Hlen Hadv. unfold vectorized_positions, rows_of.
    revert stops advanced Hrows.
    induction starts as [|s starts' IH]; intros stops' advanced' Hrows.
    - exists []. by destruct stops'.
    - destruct stops' as [|t stops']; [by exists []|].
      destruct advanced' as [|a advanced']; [by exists []|].
      destruct (Hrows 0%nat s t eq_refl eq_refl) as [Hst Ht].
      specialize (IH stops' advanced' (fun i => Hrows (S i))).
      cbn [zip_with map_result].
      destruct (Z.leb_spec (len head) a) as [Hbig|Hsmall].
      { (* the context value is beyond the term *)
        assert (getitem head a = Err BufferIndex) as ->.
        { pose proof (len_nonneg head). rewrite getitem_nonneg by lia.
          by rewrite lookup_ge_None_2 by (unfold len in Hbig; lia). }
        cbn [rbind]. exists AdvancedLengthMismatch. split; [by left|done]. }
      destruct (getitem head a) as [x|e] eqn:Hx; cbn [rbind].
      2:{ unfold getitem in Hx. exists BufferIndex. split; [left|done].
          revert Hx. repeat case_match; by intros [= <-]. }
      pose proof (normalized_row_item data s t x Hst Ht) as Hnorm.
      destruct (normalized (t - s) x) as [v|e]; cbn [rbind].
      + destruct Hnorm as [Hv ->].
        assert (exists y : Z, getitem data (s + v) = Ok y) as [y Hy].
        { rewrite getitem_nonneg by lia.
          destruct (lookup_lt_is_Some_2 data (Z.to_nat (s + v))) as [y ->];
            [unfold len in Ht; lia|by exists y]. }
        rewrite Hy. cbn [rbind].
        destruct (map_result _ (zip_with pair (zip_with _ starts' stops') advanced'))
          as [items|e].
        * destruct IH as (pos & -> & Hg). cbn [rbind].
          exists (s + v :: pos). split; [done|]. cbn [gather]. by rewrite Hy, Hg.
        * destruct IH as (e' & [->|(pos & -> & Hg)] & Hcls); cbn [rbind].
          -- exists e'. split; [by left|done].
          -- exists e'. split; [right|done]. exists (s + v :: pos).
             split; [done|]. cbn [gather]. by rewrite Hy, Hg.
      + destruct Hnorm as [-> ->]. cbn [rbind].
        exists AdvancedOutOfBounds. split; [by left|done]. }
  destruct (map_result _ (zip (rows_of starts stops data) advanced)) as [items|e0].
  - destruct Hmain as (pos & -> & Hg). cbn [rbind array_take].
    by rewrite Hg.
  - destruct Hmain as (e & [->|(pos & -> & Hg)] & Hcls).
    + by exists e.
    + exists e. cbn [rbind array_take]. by rewrite Hg.
Qed.

Lemma getitem_intarray_pairs_rows_witness :
  getitem_next flat_rejects [TIntArray [-1; 0]]
    (JaggedArray [0; 2] [2; 5] (ndarray [10; 20; 30; 40; 50])) (Some [1; 0])
  = Ok (ndarray [10; 50]).
Proof.
  refine (getitem_intarray_pairs_rows flat_rejects [0; 2] [2; 5]
            [10; 20; 30; 40; 50] [-1; 0] [1; 0] eq_refl eq_refl _).
  intros [|[|i]] s t Hs Ht; cbn in *; simplify_eq; unfold len; cbn; lia.
Defined.

(** ** The union: construction, validation, mutation and iteration *)

Lemma no_negative (l : list Z) :
  Forall (fun t => 0 <= t) l -> existsb (fun t => t <? 0) l = false.
Proof.
  induction 1 as [|t l Ht _ IH]; cbn; [done|].
  rewrite IH. by destruct (Z.ltb_spec t 0); [lia|].
Qed.

Lemma some_negative (l : list Z) (t : Z) :
  t ∈ l -> t < 0 -> existsb (fun t => t <? 0) l = true.
Proof.
  intros Ht Hneg. induction Ht as [t l|t y l _ IH]; cbn.
  - by destruct (Z.ltb_spec t 0); [|lia].
  - rewrite IH by done. by destruct (y <? 0).
Qed.

Lemma nonempty_len {A} (l : list A) : l <> [] -> (len l =? 0) = false.
Proof.
  intros Hl. destruct l; [done|]. rewrite len_cons.
  pose proof (len_nonneg l). by destruct (Z.eqb_spec (1 + len l) 0); [lia|].
Qed.

Section UnionFurther.

Context {A : Type}.
Implicit Types (u : UnionArray A) (contents : list (content A)).

(** What [fromtags] refuses, in the order it checks: a negative tag, no
    contents, no tag at all (numpy has no maximum of an empty array), a tag
    at or beyond the number of contents. Each is a [ValueError]. *)
Theorem fromtags_errors (np_empty : nat -> list Z) (tags : intarray) contents
    (t : Z) :
  (t ∈ values tags -> t < 0 ->
   fromtags np_empty tags contents = Err TagsNegative)
  /\ (Forall (fun t => 0 <= t) (values tags) -> contents = [] ->
      fromtags np_empty tags contents = Err ContentsEmpty)
  /\ (values tags = [] -> contents <> [] ->
      fromtags np_empty tags contents = Err EmptyReduction)
  /\ (Forall (fun t => 0 <= t) (values tags) -> contents <> [] ->
      t ∈ values tags -> len contents <= t ->
      fromtags np_empty tags contents = Err FromtagsMaxTag)
  /\ Forall (fun e => pyclass e = ValueError)
       [TagsNegative; ContentsEmpty; EmptyReduction; FromtagsMaxTag].
Proof.
  unfold fromtags, check_tags, check_contents. repeat split.
  - intros Ht Hneg. by rewrite (some_negative _ t).
  - intros Htags ->. by rewrite no_negative.
  - intros Hempty Hcontents. rewrite Hempty. cbn [existsb rbind].
    rewrite nonempty_len by done. cbn [rbind]. by rewrite Hempty.
  - intros Htags Hcontents Ht Hbig. rewrite no_negative by done. cbn [rbind].
    rewrite nonempty_len by done. cbn [rbind].
    destruct (array_max_bound _ _ Ht) as (m & -> & Htm). cbn [rbind].
    by destruct (Z.leb_spec (len contents) m); [|lia].
  - repeat constructor.
Qed.

(** A union that is not marked valid and one of whose tags is at or beyond
    the number of contents fails validation with one of the three errors
    that precede the index check. *)
Lemma valid_rejects_tag u (t : Z) :
  _isvalid u = false ->
  t ∈ values (_tags u) ->
  len (_contents u) <= t ->
  exists e : error,
    _valid u = Err e
    /\ (e = ValidRank \/ e = ValidDimensionality \/ e = ValidMaxTag).
Proof.
  intros Hflag Ht Hbig. unfold _valid. rewrite Hflag.
  destruct (len (shape (_index u)) <? len (shape (_tags u))); [by eexists; eauto|].
  destruct (negb _); [by eexists; eauto|].
  destruct (array_max_bound _ _ Ht) as (m & -> & Htm). cbn [rbind].
  destruct (Z.leb_spec (len (_contents u)) m); [|lia].
  by eexists; eauto.
Qed.

(** A container that validation returns is marked valid, so validating
    it again returns it. *)
Lemma valid_again u u' : _valid u = Ok u' -> _isvalid u' = true /\ _valid u' = Ok u'.
Proof.
  intros Hvalid.
  assert (_isvalid u' = true) as Hflag.
  { revert Hvalid. unfold _valid.
    destruct (_isvalid u) eqn:Hu; [by intros [= <-]|].
    repeat (match goal with
            | |- context [if ?b then _ else _] => destruct b
            end; try done).
    destruct (array_max _); [cbn|done]. destruct (_ <=? _); [done|].
    destruct (intarray_len _); [cbn|done].
    destruct (array_max _); [cbn|done].
    destruct (for_each _ _ _); [cbn|done].
    by intros [= <-]. }
  split; [done|]. unfold _valid. by rewrite Hflag.
Qed.

(** Validation is cached: the container it returns is marked valid, has
    the attributes of the one it was given, validates to itself, and
    answers every read as the original does. *)
Theorem valid_cached u u' :
  _valid u = Ok u' ->
  _isvalid u' = true
  /\ _tags u' = _tags u /\ _index u' = _index u /\ _contents u' = _contents u
  /\ _valid u' = Ok u'
  /\ forall w : selector, __getitem__ u' w = __getitem__ u w.
Proof.
  intros Hvalid.
  destruct (valid_fields _ _ Hvalid) as (_ & Ht & Hi & Hc).
  destruct (valid_again _ _ Hvalid) as [Hflag Hagain].
  repeat split; try done.
  intros w. unfold __getitem__. by rewrite Hvalid, Hagain.
Qed.

(** Replacing the contents resets the cache: even on a container marked
    valid, once there are fewer contents than some tag asks for, the setter
    succeeds and every later read fails validation with a [ValueError]. *)
Theorem set_contents_invalidates u (value : list (content A)) (t : Z) :
  value <> [] ->
  t ∈ values (_tags u) ->
  len value <= t ->
  exists (u1 : UnionArray A) (e : error),
    set_contents u value = Ok u1
    /\ _isvalid u1 = false
    /\ _tags u1 = _tags u /\ _index u1 = _index u
    /\ (forall w : selector, __getitem__ u1 w = Err e)
    /\ pyclass e = ValueError.
Proof.
  intros Hvalue Ht Hbig. unfold set_contents, check_contents.
  rewrite nonempty_len by done. cbn [rbind].
  eexists. 
  edestruct (valid_rejects_tag
               {| _view := _view u; _tags := _tags u; _index := _index u;
                  _contents := value; _isvalid := false |} t)
    as (e & He & Hcases); [done..|].
  exists e. repeat split.
  - intros w. unfold __getitem__. by rewrite He.
  - by destruct Hcases as [->|[->| ->]].
Qed.

(** So does replacing the tags. *)
Theorem set_tags_invalidates u (value : intarray) (t : Z) :
  Forall (fun t => 0 <= t) (values value) ->
  t ∈ values value ->
  len (_contents u) <= t ->
  exists (u1 : UnionArray A) (e : error),
    set_tags u value = Ok u1
    /\ _isvalid u1 = false
    /\ _index u1 = _index u /\ _contents u1 = _contents u
    /\ (forall w : selector, __getitem__ u1 w = Err e)
    /\ pyclass e = ValueError.
Proof.
  intros Hvalue Ht Hbig. unfold set_tags, check_tags.
  rewrite no_negative by done. cbn [rbind].
  eexists.
  edestruct (valid_rejects_tag
               {| _view := _view u; _tags := value; _index := _index u;
                  _contents := _contents u; _isvalid := false |} t)
    as (e & He & Hcases); [done..|].
  exists e. repeat split.
  - intros w. unfold __getitem__. by rewrite He.
  - by destruct Hcases as [->|[->| ->]].
Qed.

(** A union without a single position can be constructed, and never
    validated, read nor iterated: the maximum of no tags is a [ValueError]
    of numpy. *)
Theorem empty_union_unreadable (tags index : intarray) contents :
  values tags = [] ->
  Forall (fun i => 0 <= i) (values index) ->
  contents <> [] ->
  exists (u : UnionArray A) (e : error),
    __init__ tags index contents = Ok u
    /\ _valid u = Err e
    /\ pyclass e = ValueError
    /\ (shape tags = shape index -> e = EmptyReduction)
    /\ (forall w : selector, __getitem__ u w = Err e)
    /\ __iter__ u = ([], Some e).
Proof.
  intros Hempty Hindex Hcontents.
  exists {| _view := None; _tags := tags; _index := index;
            _contents := contents; _isvalid := false |}.
  assert (exists e : error,
             _valid {| _view := None; _tags := tags; _index := index;
                       _contents := contents; _isvalid := false |} = Err e
             /\ pyclass e = ValueError
             /\ (shape tags = shape index -> e = EmptyReduction))
    as (e & He & Hcls & Hshape).
  { unfold _valid. cbn [_isvalid _tags _index _contents].
    destruct (len (shape index) <? len (shape tags)) eqn:Hrank.
    { exists ValidRank. repeat split. intros Heq. rewrite Heq in Hrank.
      by apply Z.ltb_lt in Hrank; lia. }
    destruct (bool_decide (drop 1 (shape tags) = drop 1 (shape index))) eqn:Hdim;
      cbn [negb].
    2:{ exists ValidDimensionality. repeat split. intros Heq.
        rewrite Heq in Hdim. by rewrite bool_decide_eq_false in Hdim. }
    rewrite Hempty. by exists EmptyReduction. }
  exists e. split.
  { apply init_ok; [by rewrite Hempty|done|done]. }
  repeat split; try done.
  - intros w. unfold __getitem__. by rewrite He.
  - unfold __iter__. by rewrite He.
Qed.

(** Iterating a union without a view that validates visits the positions
    [0] to [len(tags) - 1] in order and yields
    [contents[tags[i]][index[i]]] for each, up to the first position where
    that lookup raises. *)
Theorem iter_elements u u' (L : Z) :
  _view u = None ->
  _valid u = Ok u' ->
  shape (_tags u) = [L] ->
  __iter__ u = yield_each (element_at u) (range L).
Proof.
  intros Hview Hvalid Hshape.
  destruct (valid_fields _ _ Hvalid) as (Hv & Ht & Hi & Hc).
  destruct (valid_again _ _ Hvalid) as [_ Hagain].
  unfold __iter__, __len__, intarray_len. rewrite Hvalid, Ht, Hshape.
  assert (forall i : Z,
             i ∈ range L ->
             (let* (e, _) := __getitem__ u' (SInt i) in Ok e) = element_at u i)
    as Hread.
  { intros i (n & -> & Hn)%list_elem_of_fmap. apply elem_of_seq in Hn.
    unfold range in *.
    rewrite (union_getitem_inside u' u' L (Z.of_nat n));
      [|by rewrite Hv|done|by rewrite Ht|lia].
    unfold element_at. rewrite Ht, Hi, Hc.
    destruct (getitem (values (_tags u)) _); [cbn|done].
    destruct (getitem (_contents u) _); [cbn|done].
    destruct (getitem (values (_index u)) _); [cbn|done].
    by destruct (getitem (items _) _). }
  induction (range L) as [|i l IH]; [done|].
  cbn [yield_each]. rewrite Hread by (by left).
  destruct (element_at u i); [|done].
  rewrite IH; [done|]. intros j Hj. apply Hread. by right.
Qed.

End UnionFurther.

Lemma fromtags_errors_witness :
  fromtags (fun n => replicate n 0) (array1d []) [int_content [10; 20]]
  = Err EmptyReduction
  /\ fromtags (fun n => replicate n 0) (array1d [0; 1]) [int_content [10; 20]]
     = Err FromtagsMaxTag.
Proof.
  split.
  - apply (fromtags_errors (fun n => replicate n 0) (array1d [])
             [int_content [10; 20]] 0); done.
  - apply (fromtags_errors (fun n => replicate n 0) (array1d [0; 1])
             [int_content [10; 20]] 1); try done.
    + repeat constructor; lia.
    + cbn. apply elem_of_cons. right. apply elem_of_cons. by left.
Defined.

Lemma fromtags_offsets_witness :
  fromtags (fun n => replicate n 0) (array1d [1; 0; 1; 1; 0])
    [int_content [10; 20]; int_content [30; 40; 50]]
  = Ok {| _view := None; _tags := array1d [1; 0; 1; 1; 0];
          _index := array1d [0; 0; 1; 2; 1];
          _contents := [int_content [10; 20]; int_content [30; 40; 50]];
          _isvalid := false |}.
Proof.
  apply (fromtags_offsets (fun n => replicate n 0) [1; 0; 1; 1; 0]
           [int_content [10; 20]; int_content [30; 40; 50]] 1).
  - intros n. apply length_replicate.
  - repeat constructor; lia.
  - done.
  - reflexivity.
  - by vm_compute.
Defined.

Lemma valid_cached_witness :
  _valid (sample_union false) = Ok (sample_union true)
  /\ _valid (sample_union true) = Ok (sample_union true)
  /\ forall w : selector,
       __getitem__ (sample_union true) w = __getitem__ (sample_union false) w.
Proof.
  destruct (valid_cached (sample_union false) (sample_union true) eq_refl)
    as (_ & _ & _ & _ & Hagain & Hread).
  by split.
Defined.

Lemma set_contents_invalidates_witness :
  exists (u1 : UnionArray Z) (e : error),
    set_contents
      {| _view := None; _tags := array1d [0; 1; 0]; _index := array1d [0; 0; 1];
         _contents := [int_content [10; 20]; int_content [99]];
         _isvalid := true |}
      [int_content [10; 20]] = Ok u1
    /\ _isvalid u1 = false
    /\ (forall w : selector, __getitem__ u1 w = Err e)
    /\ pyclass e = ValueError.
Proof.
  edestruct (set_contents_invalidates
               {| _view := None; _tags := array1d [0; 1; 0];
                  _index := array1d [0; 0; 1];
                  _contents := [int_content [10; 20]; int_content [99]];
                  _isvalid := true |}
               [int_content [10; 20]] 1) as (u1 & e & H1 & H2 & _ & _ & H3 & H4).
  - done.
  - cbn. apply elem_of_cons. right. apply elem_of_cons. by left.
  - by vm_compute.
  - by exists u1, e.
Defined.

Lemma set_tags_invalidates_witness :
  exists (u1 : UnionArray Z) (e : error),
    set_tags
      {| _view := None; _tags := array1d [0; 1; 0]; _index := array1d [0; 0; 1];
         _contents := [int_content [10; 20]; int_content [99]];
         _isvalid := true |}
      (array1d [0; 2; 0]) = Ok u1
    /\ _isvalid u1 = false
    /\ (forall w : selector, __getitem__ u1 w = Err e)
    /\ pyclass e = ValueError.
Proof.
  edestruct (set_tags_invalidates
               {| _view := None; _tags := array1d [0; 1; 0];
                  _index := array1d [0; 0; 1];
                  _contents := [int_content [10; 20]; int_content [99]];
                  _isvalid := true |}
               (array1d [0; 2; 0]) 2) as (u1 & e & H1 & H2 & _ & _ & H3 & H4).
  - repeat constructor; lia.
  - cbn. apply elem_of_cons. right. apply elem_of_cons. by left.
  - by vm_compute.
  - by exists u1, e.
Defined.

Lemma empty_union_unreadable_witness :
  exists (u : UnionArray Z) (e : error),
    union_of [] [] [int_content [10; 20]] = Ok u
    /\ _valid u = Err e
    /\ __iter__ u = ([], Some e).
Proof.
  destruct (empty_union_unreadable (A := Z) (array1d []) (array1d [])
              [int_content [10; 20]] eq_refl)
    as (u & e & H1 & H2 & _ & _ & _ & H3).
  - constructor.
  - done.
  - by exists u, e.
Defined.

Lemma iter_elements_witness :
  __iter__ (sample_union false)
  = yield_each (element_at (sample_union false)) (range 3).
Proof.
  exact (iter_elements (sample_union false) (sample_union true) 3
           eq_refl eq_refl eq_refl).
Defined.

(** ** The element type of a union *)

Section ElementType.

Context {A : Type}.
Implicit Types (contents : list (content A)) (types : list npdtype).

Lemma all_of_true types contents :
  all_of types contents = true
  <-> forall d : npdtype, d ∈ map dtype_of contents -> d ∈ types.
Proof.
  unfold all_of. rewrite forallb_forall. split.
  - intros Hall d (x & -> & Hx)%list_elem_of_fmap.
    apply list_elem_of_In, Hall in Hx. by apply bool_decide_eq_true in Hx.
  - intros Hall x Hx%list_elem_of_In. apply bool_decide_eq_true, Hall.
    apply list_elem_of_fmap. by exists x.
Qed.

Lemma all_of_false types contents :
  all_of types contents = false
  <-> exists x : content A, x ∈ contents /\ dtype_of x ∉ types.
Proof.
  unfold all_of. induction contents as [|y contents IH]; cbn.
  - split; [done|]. by intros (x & Hx%elem_of_nil & _).
  - rewrite andb_false_iff, IH, bool_decide_eq_false. split.
    + intros [Hy|(x & Hx & Hout)].
      * exists y. split; [by left|done].
      * exists x. split; [by right|done].
    + intros (x & [->|Hx]%elem_of_cons & Hout); [by left|].
      right. by exists x.
Qed.

Lemma all_of_same_types types contents1 contents2 :
  (forall d : npdtype,
      d ∈ map dtype_of contents1 <-> d ∈ map dtype_of contents2) ->
  all_of types contents1 = all_of types contents2.
Proof.
  intros Hsame. apply eq_true_iff_eq. rewrite !all_of_true.
  split; intros Hall d Hd; apply Hall, Hsame, Hd.
Qed.

Lemma all_of_uniform types contents (d : npdtype) :
  contents <> [] ->
  (forall x : content A, x ∈ contents -> dtype_of x = d) ->
  all_of types contents = bool_decide (d ∈ types).
Proof.
  intros Hne Hall. apply eq_true_iff_eq.
  rewrite all_of_true, bool_decide_eq_true. split.
  - intros Hin. destruct contents as [|x contents]; [done|].
    apply Hin. cbn. rewrite <- (Hall x) by (by left). by left.
  - intros Hd d' (x & -> & Hx)%list_elem_of_fmap. by rewrite (Hall x).
Qed.

Lemma all_of_weaken types1 types2 contents :
  types1 ⊆ types2 -> all_of types1 contents = true ->
  all_of types2 contents = true.
Proof.
  rewrite !all_of_true. intros Hsub Hall d Hd. by apply Hsub, Hall.
Qed.

(** The element type of a union depends on the set of element types of
    its contents only: neither their order nor their number of occurrences
    matters. *)
Theorem dtype_of_set contents1 contents2 :
  (forall d : npdtype,
      d ∈ map dtype_of contents1 <-> d ∈ map dtype_of contents2) ->
  dtype contents1 = dtype contents2.
Proof.
  intros Hsame. unfold dtype.
  by rewrite !(all_of_same_types _ contents1 contents2 Hsame).
Qed.

(** Contents that all have the element type [d] give a union of element
    type [d] when [d] is the boolean type, one of the eight fixed-width
    integer types, a floating or a complex type; an integer type outside
    the eight ([timedelta64], the C [long long] types) is caught by the test
    of line 157 and gives 64-bit floats; any other common type gives the
    generic type. *)
Theorem dtype_uniform contents (d : npdtype) :
  contents <> [] ->
  (forall x : content A, x ∈ contents -> dtype_of x = d) ->
  dtype contents
  = if bool_decide (d ∈ [longlong; ulonglong; timedelta64]) then float64
    else if bool_decide (d = str_) then object_
    else d.
Proof.
  intros Hne Hall. unfold dtype.
  rewrite !(all_of_uniform _ contents d Hne Hall).
  by destruct d; vm_compute.
Qed.

(** The element type of a union is the generic one exactly when some
    content is not boolean and some content is neither integer, floating
    nor complex: booleans mixed with numbers are generic as well. *)
Theorem dtype_object contents :
  dtype contents = object_
  <-> (exists x : content A, x ∈ contents /\ dtype_of x <> bool_)
      /\ (exists x : content A,
             x ∈ contents
             /\ dtype_of x ∉ integer_types ++ floating_types
                               ++ complexfloating_types).
Proof.
  assert (forall types,
             types ⊆ integer_types ++ floating_types ++ complexfloating_types ->
             all_of (integer_types ++ floating_types ++ complexfloating_types)
               contents = false ->
             all_of types contents = false) as Hsub.
  { intros types Hsub Hfalse. destruct (all_of types contents) eqn:Htypes; [|done].
    by rewrite (all_of_weaken _ _ _ Hsub Htypes) in Hfalse. }
  assert (forall types, types ⊆ types) as Hrefl by done.
  split.
  - intros Hobj. split.
    + destruct (all_of [bool_] contents) eqn:Hbool.
      { unfold dtype in Hobj. by rewrite Hbool in Hobj. }
      apply all_of_false in Hbool as (x & Hx & Hout). exists x. split; [done|].
      intros Heq. apply Hout. rewrite Heq. by left.
    + apply all_of_false. revert Hobj. unfold dtype.
      repeat (match goal with
              | |- context [if all_of ?t contents then _ else _] =>
                  destruct (all_of t contents)
              end; try done).
  - intros [(x & Hx & Hbool) Hnum]. apply all_of_false in Hnum.
    assert (all_of [bool_] contents = false) as Hb.
    { apply all_of_false. exists x. split; [done|].
      by intros Heq%list_elem_of_singleton. }
    unfold dtype. rewrite Hb, Hnum.
    rewrite !Hsub; try done;
      unfold integer_types, floating_types, complexfloating_types; cbn [app];
      intros d Hd;
      repeat (apply elem_of_cons in Hd as [->|Hd];
              [by repeat first [by left | right]|]);
      by apply elem_of_nil in Hd.
Qed.

(** Integer contents one of which is an unsigned 64-bit one and one of
    which is signed have no common integer type: the union is of 64-bit
    floating type. *)
Theorem dtype_signed_with_uint64 contents (x y : content A) :
  (forall z : content A, z ∈ contents -> dtype_of z ∈ integer_types) ->
  x ∈ contents -> dtype_of x = uint64 ->
  y ∈ contents -> dtype_of y ∈ [int8; int16; int32; int64] ->
  dtype contents = float64.
Proof.
  intros Hint Hx Hdx Hy Hdy.
  assert (forall types, uint64 ∉ types -> all_of types contents = false) as Hnot64.
  { intros types Hout. apply all_of_false. exists x. by rewrite Hdx. }
  assert (all_of [uint8; uint16; uint32; uint64] contents = false) as Hunsigned.
  { apply all_of_false. exists y. split; [done|]. intros Hin.
    repeat (apply elem_of_cons in Hdy as [Hdy|Hdy];
            [rewrite Hdy in Hin;
             repeat (apply elem_of_cons in Hin as [?|Hin]; [done|]);
             by apply elem_of_nil in Hin|]).
    by apply elem_of_nil in Hdy. }
  assert (all_of (integer_types ++ floating_types) contents = true) as Hnum.
  { apply all_of_true. intros d (z & -> & Hz)%list_elem_of_fmap.
    apply elem_of_app. left. by apply Hint. }
  unfold dtype. rewrite Hunsigned, Hnum.
  rewrite !Hnot64; try done;
    intros Hin;
    repeat (apply elem_of_cons in Hin as [?|Hin]; [done|]);
    by apply elem_of_nil in Hin.
Qed.

End ElementType.

Lemma dtype_of_set_witness :
  dtype [ {| items := [1; 2]; item_shape := []; dtype_of := int8 |};
          {| items := [3]; item_shape := []; dtype_of := uint16 |} ]
  = dtype [ {| items := [3]; item_shape := []; dtype_of := uint16 |};
            {| items := [1; 2]; item_shape := []; dtype_of := int8 |};
            {| items := [3]; item_shape := []; dtype_of := uint16 |} ].
Proof.
  apply dtype_of_set. intros d. cbn. rewrite !elem_of_cons. tauto.
Defined.

Lemma dtype_uniform_witness :
  dtype [ {| items := [1; 2]; item_shape := []; dtype_of := uint32 |};
          {| items := [3]; item_shape := []; dtype_of := uint32 |} ]
  = uint32
  /\ dtype [ {| items := [1; 2]; item_shape := []; dtype_of := timedelta64 |};
             {| items := [3]; item_shape := []; dtype_of := timedelta64 |} ]
     = float64.
Proof.
  split.
  - apply (dtype_uniform
             [ {| items := [1; 2]; item_shape := []; dtype_of := uint32 |};
               {| items := [3]; item_shape := []; dtype_of := uint32 |} ] uint32).
    + done.
    + intros x Hx.
      repeat (apply elem_of_cons in Hx as [->|Hx]; [done|]).
      by apply elem_of_nil in Hx.
  - apply (dtype_uniform
             [ {| items := [1; 2]; item_shape := []; dtype_of := timedelta64 |};
               {| items := [3]; item_shape := []; dtype_of := timedelta64 |} ]
             timedelta64).
    + done.
    + intros x Hx.
      repeat (apply elem_of_cons in Hx as [->|Hx]; [done|]).
      by apply elem_of_nil in Hx.
Defined.

Lemma dtype_signed_with_uint64_witness :
  dtype [ {| items := [1; 2]; item_shape := []; dtype_of := uint64 |};
          {| items := [3]; item_shape := []; dtype_of := int8 |} ]
  = float64.
Proof.
  apply (dtype_signed_with_uint64
           [ {| items := [1; 2]; item_shape := []; dtype_of := uint64 |};
             {| items := [3]; item_shape := []; dtype_of := int8 |} ]
           {| items := [1; 2]; item_shape := []; dtype_of := uint64 |}
           {| items := [3]; item_shape := []; dtype_of := int8 |}).
  - intros z Hz. unfold integer_types.
    repeat (apply elem_of_cons in Hz as [->|Hz];
            [cbn; by repeat first [by left | right]|]).
    by apply elem_of_nil in Hz.
  - by left.
  - done.
  - right. by left.
  - by left.
Defined.

(** ** The columns of a union *)

Section ColumnsProperties.

Context {K : Type} `{EqDecision K}.
Implicit Types (names : list (list K)) (contents : list (table (K := K))).

Lemma common_names_snoc_step names (c : list K) :
  common_names (names ++ [c])
  = match common_names names with
    | None => Some c
    | Some out => Some (filter (fun x => x ∈ out) c)
    end.
Proof. unfold common_names. by rewrite foldl_snoc. Qed.

Lemma common_names_spec names :
  match common_names names with
  | None => names = []
  | Some out => names <> [] /\ forall x : K, x ∈ out <-> Forall (fun n => x ∈ n) names
  end.
Proof.
  induction names as [|c names IH] using rev_ind; [done|].
  rewrite common_names_snoc_step.
  destruct (common_names names) as [out|].
  - destruct IH as [_ IH]. split; [by destruct names|]. intros x.
    rewrite list_elem_of_filter, Forall_app, Forall_singleton, IH. tauto.
  - subst names. split; [done|]. intros x. cbn. by rewrite Forall_singleton.
Qed.

Lemma common_names_snoc names (c : list K) :
  common_names (names ++ [c])
  = Some (filter (fun x => Forall (fun n => x ∈ n) names) c).
Proof.
  rewrite common_names_snoc_step. pose proof (common_names_spec names) as Hspec.
  destruct (common_names names) as [out|].
  - destruct Hspec as [_ Hout]. f_equal. by apply list_filter_iff.
  - subst names. f_equal. symmetry.
    induction c as [|x c IH]; [done|].
    rewrite filter_cons_True by constructor. by rewrite IH.
Qed.

(** [columns] and [allcolumns] of a union are the columns of its last
    content that every earlier content has too, in the order and with the
    repetitions of the last content. *)
Theorem columns_of_last contents (c : table) :
  columns (contents ++ [c])
  = Some (filter (fun x => Forall (fun c' => x ∈ table_columns c') contents)
            (table_columns c))
  /\ allcolumns (contents ++ [c])
     = Some (filter (fun x => Forall (fun c' => x ∈ table_allcolumns c') contents)
               (table_allcolumns c)).
Proof.
  unfold columns, allcolumns. rewrite !map_app. cbn [map].
  rewrite !common_names_snoc. split; f_equal; apply list_filter_iff; intros x;
    by rewrite Forall_fmap.
Qed.

(** [columns] and [allcolumns] of a union are [None] for no contents only,
    and otherwise hold exactly the names that every content has. *)
Theorem columns_common contents :
  match columns contents with
  | None => contents = []
  | Some out =>
      contents <> []
      /\ forall x : K, x ∈ out <-> forall c : table, c ∈ contents -> x ∈ table_columns c
  end
  /\ match allcolumns contents with
     | None => contents = []
     | Some out =>
         contents <> []
         /\ forall x : K,
              x ∈ out <-> forall c : table, c ∈ contents -> x ∈ table_allcolumns c
     end.
Proof.
  unfold columns, allcolumns. split.
  - pose proof (common_names_spec (map table_columns contents)) as Hspec.
    destruct (common_names _) as [out|].
    + destruct Hspec as [Hne Hout]. split; [by destruct contents|].
      intros x. by rewrite Hout, Forall_fmap, Forall_forall.
    + by destruct contents.
  - pose proof (common_names_spec (map table_allcolumns contents)) as Hspec.
    destruct (common_names _) as [out|].
    + destruct Hspec as [Hne Hout]. split; [by destruct contents|].
      intros x. by rewrite Hout, Forall_fmap, Forall_forall.
    + by destruct contents.
Qed.

End ColumnsProperties.
